(** * Startup investment dashboard (app.py): data model, loader, filter
      engine, aggregators and page output, with the properties of the
      specification proved over them.

    The script is a linear pass: [load_data] normalises the table, the
    sidebar widgets give the filter criteria, a boolean mask selects the
    rows, and the page body is emitted (either the warning and a stop, or
    the overview table followed by seven views).

    Numbers: [founded_year] is an integer column ([Z]); the funding column
    is a real-valued column, modelled by exact rationals ([Q]), so sums,
    means and ratios are exact and the rounding of binary floating point
    is left out.  The loader is modelled with the infinities a numeric
    cell can hold and with the 64-bit range of its integer cast; the rest
    of the script is modelled on tables whose funding is finite.  Text
    columns may hold nulls ([option string]). *)

From Stdlib Require Import List String Ascii Bool ZArith QArith Lia.
From Stdlib Require Import Permutation Sorted DecimalString.
From Stdlib Require DecimalNat.
Import ListNotations.

Local Open Scope string_scope.
Local Open Scope list_scope.

(** ** Rows and frames *)

(** One record of the table after normalisation. *)
Record row : Type := mkRow {
  name              : option string;
  market            : option string;
  country_code      : option string;
  status            : option string;
  founded_year      : Z;
  funding_total_usd : Q;
  funding_rounds    : option Z;
  homepage_url      : option string
}.

(** A cell of a column as [pd.read_csv] delivers it: a missing value, a
    finite number, an infinity, or text. *)
Inductive cell : Type :=
| NaN
| Num (q : Q)
| Inf (negative : bool)
| Str (s : string).

(** A value of a numeric column that is not missing. *)
Inductive number : Type :=
| Finite (q : Q)
| Infinite (negative : bool).

(** One record of the table as read, before the two numeric columns are
    coerced. *)
Record raw_row : Type := mkRaw {
  raw_name           : option string;
  raw_market         : option string;
  raw_country_code   : option string;
  raw_status         : option string;
  raw_founded_year   : cell;
  raw_funding        : cell;
  raw_funding_rounds : option Z;
  raw_homepage_url   : option string
}.

(** One record of the table as [load_data] returns it: the year is an
    integer, the funding any number of the column. *)
Record loaded_row : Type := mkLoaded {
  l_name              : option string;
  l_market            : option string;
  l_country_code      : option string;
  l_status            : option string;
  l_founded_year      : Z;
  l_funding_total_usd : number;
  l_funding_rounds    : option Z;
  l_homepage_url      : option string
}.

(** A data frame: which of the two optional columns are present, and the
    ordered rows. *)
Record frame (R : Type) : Type := mkFrame {
  has_funding_rounds : bool;
  has_homepage_url   : bool;
  rows               : list R
}.
Arguments mkFrame {R} _ _ _.
Arguments has_funding_rounds {R} _.
Arguments has_homepage_url {R} _.
Arguments rows {R} _.

Definition empty {R : Type} (df : frame R) : bool :=
  match rows df with [] => true | _ :: _ => false end.

Definition head {R : Type} (n : nat) (df : frame R) : list R :=
  firstn n (rows df).

(** ** Loader (app.py, [load_data]) *)

(** Truncation toward zero: Python's [int] on a finite number, and the
    cast of a number to an integer where the integer fits. *)
Definition trunc (q : Q) : Z := Z.quot (Qnum q) (Z.pos (Qden q)).

Definition int64_min : Z := (-9223372036854775808)%Z.
Definition int64_max : Z := 9223372036854775807%Z.

Definition in_int64 (z : Z) : bool := (int64_min <=? z)%Z && (z <=? int64_max)%Z.

(** All the values, if none is missing. *)
Fixpoint sequence {A : Type} (l : list (option A)) : option (list A) :=
  match l with
  | [] => Some []
  | None :: _ => None
  | Some x :: t =>
      match sequence t with
      | Some t' => Some (x :: t')
      | None => None
      end
  end.

Module Loader.

Section WithParser.

(** The numeric parser [pd.to_numeric] applies to a text cell; [None]
    when the text is not a number. *)
Variable parse_number : string -> option number.

(** What the cast to a 64-bit integer leaves for a finite number whose
    integer part does not fit: the language of the cast does not define
    it, the processor decides (the smallest 64-bit integer on x86-64). *)
Variable cast_overflow : Q -> Z.

(** [pd.to_numeric(col, errors='coerce')] on one cell: what does not
    parse becomes missing. *)
Definition to_numeric (c : cell) : option number :=
  match c with
  | NaN => None
  | Num q => Some (Finite q)
  | Inf negative => Some (Infinite negative)
  | Str s => parse_number s
  end.

(** [.fillna(0)] *)
Definition fillna (d : number) (v : option number) : number :=
  match v with
  | Some x => x
  | None => d
  end.

(** [.astype(int)] on one value of a float column: an infinity raises,
    a finite number is truncated toward zero into a 64-bit integer. *)
Definition astype_int (x : number) : option Z :=
  match x with
  | Infinite _ => None
  | Finite q => if in_int64 (trunc q) then Some (trunc q)
                else Some (cast_overflow q)
  end.

(** One row of the result; [None] when the cast of its year raises. *)
Definition load_row (r : raw_row) : option loaded_row :=
  match astype_int (fillna (Finite 0) (to_numeric (raw_founded_year r))) with
  | Some y =>
      Some {| l_name := raw_name r;
              l_market := raw_market r;
              l_country_code := raw_country_code r;
              l_status := raw_status r;
              l_founded_year := y;
              l_funding_total_usd :=
                fillna (Finite 0) (to_numeric (raw_funding r));
              l_funding_rounds := raw_funding_rounds r;
              l_homepage_url := raw_homepage_url r |}
  | None => None
  end.

(** The load; [None] when the cast of the year column raises, which
    ends the script. *)
Definition load_data (csv : frame raw_row) : option (frame loaded_row) :=
  match sequence (map load_row (rows csv)) with
  | Some l => Some {| has_funding_rounds := has_funding_rounds csv;
                      has_homepage_url := has_homepage_url csv;
                      rows := l |}
  | None => None
  end.

End WithParser.

(** The loaded row as a row of the tables the rest of the script is
    modelled on: defined when its funding is finite. *)
Definition finite_row (r : loaded_row) : option row :=
  match l_funding_total_usd r with
  | Finite q =>
      Some {| name := l_name r;
              market := l_market r;
              country_code := l_country_code r;
              status := l_status r;
              founded_year := l_founded_year r;
              funding_total_usd := q;
              funding_rounds := l_funding_rounds r;
              homepage_url := l_homepage_url r |}
  | Infinite _ => None
  end.

Definition finite (df : frame loaded_row) : option (frame row) :=
  match sequence (map finite_row (rows df)) with
  | Some l => Some {| has_funding_rounds := has_funding_rounds df;
                      has_homepage_url := has_homepage_url df;
                      rows := l |}
  | None => None
  end.

End Loader.

(** ** Column helpers *)

(** [col.dropna()] on a text column. *)
Fixpoint dropna (col : list (option string)) : list string :=
  match col with
  | [] => []
  | None :: t => dropna t
  | Some s :: t => s :: dropna t
  end.

(** [col.unique()]: distinct values in order of first appearance. *)
Fixpoint unique (l : list string) : list string :=
  match l with
  | [] => []
  | x :: t => x :: filter (fun y => negb (String.eqb x y)) (unique t)
  end.

Fixpoint uniqueZ (l : list Z) : list Z :=
  match l with
  | [] => []
  | x :: t => x :: filter (fun y => negb (Z.eqb x y)) (uniqueZ t)
  end.

(** Ascending insertion sort, for [sorted(...)] and for the key order of
    [groupby]. *)
Section Sort.
Context {A : Type} (leb : A -> A -> bool).

Fixpoint insert (x : A) (l : list A) : list A :=
  match l with
  | [] => [x]
  | y :: t => if leb x y then x :: y :: t else y :: insert x t
  end.

Definition sort_by (l : list A) : list A := fold_right insert [] l.
End Sort.

(** Python's [sorted] on strings (code-point order). *)
Definition sorted (l : list string) : list string := sort_by String.leb l.

(** ** Filter collector (sidebar widgets, lines 22-28) *)

Module Collector.

Definition status_options (df : frame row) : list string :=
  sorted (unique (dropna (map status (rows df)))).
Definition market_options (df : frame row) : list string :=
  sorted (unique (dropna (map market (rows df)))).
Definition country_options (df : frame row) : list string :=
  sorted (unique (dropna (map country_code (rows df)))).

Definition default_status (df : frame row) : list string :=
  unique (dropna (map status (rows df))).
Definition default_market (df : frame row) : list string :=
  firstn 5 (sorted (unique (dropna (map market (rows df))))).
Definition default_country : list string := ["USA"; "GBR"].
Definition default_founded_range : Z * Z := (2005, 2015)%Z.
Definition default_min_funding : Z := 1000000%Z.

End Collector.

(** ** Filter engine (lines 31-37) *)

(** The values the five widgets return. *)
Record criteria : Type := mkCriteria {
  selected_status  : list string;
  selected_market  : list string;
  selected_country : list string;
  founded_range    : Z * Z;
  min_funding      : Z
}.

(** [col.isin(values)] on one cell of a text column; the values are the
    strings a multiselect returns. *)
Definition isin (v : option string) (values : list string) : bool :=
  match v with
  | None => false
  | Some s => existsb (String.eqb s) values
  end.

(** [col.between(lo, hi)], both ends included. *)
Definition between (x lo hi : Z) : bool := (lo <=? x)%Z && (x <=? hi)%Z.

(** [col >= threshold] on the funding column. *)
Definition ge_threshold (x : Q) (threshold : Z) : bool :=
  Qle_bool (inject_Z threshold) x.

Definition mask (c : criteria) (r : row) : bool :=
  isin (status r) (selected_status c) &&
  isin (market r) (selected_market c) &&
  isin (country_code r) (selected_country c) &&
  between (founded_year r) (fst (founded_range c)) (snd (founded_range c)) &&
  ge_threshold (funding_total_usd r) (min_funding c).

Definition filtered_df (df : frame row) (c : criteria) : frame row :=
  {| has_funding_rounds := has_funding_rounds df;
     has_homepage_url := has_homepage_url df;
     rows := filter (mask c) (rows df) |}.

(** ** Aggregators (lines 69-153) *)

(** A text cell equals the key [k]; a null equals no key. *)
Definition has_value (v : option string) (k : string) : bool :=
  match v with
  | Some s => String.eqb s k
  | None => false
  end.

(** [sort_values(ascending=False)]: descending by value.  Here rows of
    equal value keep their previous order; the library's default sort
    promises no order among them, and the theorems on the charts hold
    for any. *)
Section SortValues.
Context {K V : Type} (leb : V -> V -> bool).

Fixpoint insert_desc (x : K * V) (l : list (K * V)) : list (K * V) :=
  match l with
  | [] => [x]
  | y :: t => if leb (snd y) (snd x) then x :: y :: t
              else y :: insert_desc x t
  end.

Definition sort_values_desc (l : list (K * V)) : list (K * V) :=
  fold_right insert_desc [] l.
End SortValues.

(** [.sum()] of a group, in exact arithmetic: the column's own sum is
    rounded at each addition. *)
Definition Qsum (l : list Q) : Q := fold_left Qplus l 0%Q.

(** [.mean()] of a group, in exact arithmetic. *)
Definition Qmean (l : list Q) : Q :=
  (Qsum l / inject_Z (Z.of_nat (List.length l)))%Q.

Definition Qnat (n : nat) : Q := inject_Z (Z.of_nat n).

Module Agg.

(** Key order of [groupby(col)]: distinct non-null values, ascending. *)
Definition group_keys (col : list (option string)) : list string :=
  sorted (unique (dropna col)).

Definition group (key : row -> option string) (k : string)
           (rs : list row) : list row :=
  filter (fun r => has_value (key r) k) rs.

(** 1. [groupby('market')['funding_total_usd'].sum()
        .sort_values(ascending=False).head(10)] *)
Definition market_sum (rs : list row) : list (string * Q) :=
  map (fun k => (k, Qsum (map funding_total_usd (group market k rs))))
      (group_keys (map market rs)).

Definition top_markets (rs : list row) : list (string * Q) :=
  firstn 10 (sort_values_desc Qle_bool (market_sum rs)).

(** 2. [groupby('founded_year')['funding_total_usd'].sum()] *)
Definition yearly_funding (rs : list row) : list (Z * Q) :=
  map (fun y => (y, Qsum (map funding_total_usd
                   (filter (fun r => Z.eqb (founded_year r) y) rs))))
      (sort_by Z.leb (uniqueZ (map founded_year rs))).

(** 3. [['country_code'].value_counts().head(7)] *)
Definition counts (col : list (option string)) : list (string * nat) :=
  map (fun k => (k, List.length (filter (fun v => has_value v k) col)))
      (unique (dropna col)).

Definition value_counts (col : list (option string)) : list (string * nat) :=
  sort_values_desc Nat.leb (counts col).

Definition country_counts (rs : list row) : list (string * nat) :=
  firstn 7 (value_counts (map country_code rs)).

(** 4. the box plot takes the raw (status, funding) pairs. *)
Definition status_funding (rs : list row) : list (option string * Q) :=
  map (fun r => (status r, funding_total_usd r)) rs.

(** 6. [groupby('market')['funding_total_usd'].mean()
        .sort_values(ascending=False).head(7)] *)
Definition market_mean (rs : list row) : list (string * Q) :=
  map (fun k => (k, Qmean (map funding_total_usd (group market k rs))))
      (group_keys (map market rs)).

Definition avg_funding (rs : list row) : list (string * Q) :=
  firstn 7 (sort_values_desc Qle_bool (market_mean rs)).

(** 7. [groupby(['market','status']).size()]: one entry per
    (market, status) pair present with both parts non-null, in
    lexicographic key order. *)
Definition pair_eqb (a b : string * string) : bool :=
  String.eqb (fst a) (fst b) && String.eqb (snd a) (snd b).

Definition pair_leb (a b : string * string) : bool :=
  match String.compare (fst a) (fst b) with
  | Lt => true
  | Eq => String.leb (snd a) (snd b)
  | Gt => false
  end.

Fixpoint dropna_pairs (rs : list row) : list (string * string) :=
  match rs with
  | [] => []
  | r :: t =>
      match market r, status r with
      | Some m, Some s => (m, s) :: dropna_pairs t
      | _, _ => dropna_pairs t
      end
  end.

Fixpoint unique_pairs (l : list (string * string)) : list (string * string) :=
  match l with
  | [] => []
  | x :: t => x :: filter (fun y => negb (pair_eqb x y)) (unique_pairs t)
  end.

Definition pair_keys (rs : list row) : list (string * string) :=
  sort_by pair_leb (unique_pairs (dropna_pairs rs)).

Definition size (rs : list row) : list ((string * string) * nat) :=
  map (fun k => (k, List.length (filter (fun r => has_value (market r) (fst k)
                                          && has_value (status r) (snd k)) rs)))
      (pair_keys rs).

Definition lookup_size (tbl : list ((string * string) * nat))
           (k : string * string) : option nat :=
  option_map snd (find (fun e => pair_eqb (fst e) k) tbl).

(** [.unstack(fill_value=0)]: one line per market, one column per
    status, absent pairs filled. *)
Definition unstack (fill_value : nat) (tbl : list ((string * string) * nat))
  : list (string * list (string * nat)) :=
  let index := unique (map (fun e => fst (fst e)) tbl) in
  let columns := sorted (unique (map (fun e => snd (fst e)) tbl)) in
  map (fun m =>
         (m, map (fun s => (s, match lookup_size tbl (m, s) with
                               | Some n => n
                               | None => fill_value
                               end)) columns))
      index.

Definition status_data (rs : list row) : list (string * list (string * nat)) :=
  unstack 0 (size rs).

(** [status_data.get(col, default)] on one line of the table. *)
Definition get (col : string) (default : nat) (line : list (string * nat)) : nat :=
  match find (fun c => String.eqb (fst c) col) line with
  | Some c => snd c
  | None => default
  end.

(** [status_data.sum(axis=1)] on one line of the table. *)
Definition sum_axis1 (line : list (string * nat)) : nat :=
  list_sum (map snd line).

Definition acq_rate (rs : list row) : list (string * Q) :=
  map (fun l => (fst l, (Qnat (get "acquired" 0 (snd l))
                         / Qnat (sum_axis1 (snd l)))%Q))
      (status_data rs).

Definition top_acq (rs : list row) : list (string * Q) :=
  firstn 7 (sort_values_desc Qle_bool (acq_rate rs)).

(** ['acquired' in filtered_df['status'].values] *)
Definition has_acquired (rs : list row) : bool :=
  existsb (fun r => has_value (status r) "acquired") rs.

End Agg.

(** ** Page body (lines 39-161) *)

(** The table summary of lines 47-50. *)
Record display_row : Type := mkDisplay {
  d_name         : option string;
  d_market       : option string;
  d_country_code : option string;
  d_status       : option string;
  d_founded_year : Z;
  d_funding      : Q;
  d_homepage_url : string
}.

(** [x.startswith(p)] *)
Definition startswith (x p : string) : bool := String.prefix p x.

(** The lambda applied to the [homepage_url] column. *)
Definition website_cell (x : option string) : string :=
  match x with
  | Some u => if startswith u "http" then ("[Website](" ++ u ++ ")")%string else ""
  | None => ""
  end.

Definition display_of (r : row) : display_row :=
  {| d_name := name r;
     d_market := market r;
     d_country_code := country_code r;
     d_status := status r;
     d_founded_year := founded_year r;
     d_funding := funding_total_usd r;
     d_homepage_url := website_cell (homepage_url r) |}.

Definition display_df (df : frame row) : frame display_row :=
  {| has_funding_rounds := false;
     has_homepage_url := true;
     rows := map display_of (rows df) |}.

(** Where an element is placed. *)
Inductive container : Type := page | col1 | col2.

(** What the script hands to the UI surface. *)
Inductive element : Type :=
| st_warning (msg : string)
| st_info (msg : string)
| st_markdown (body : string)
| st_write (body : string)
| st_table (t : list display_row)
| st_write_frame (t : list row)
| st_barplot (xlabel ylabel : string) (data : list (string * Q))
| st_line (title : string) (data : list (Z * Q))
| st_pie (title : string) (data : list (string * nat))
| st_boxplot (title : string) (data : list (option string * Q))
| st_scatter (title : string) (data : list row).

Definition event : Type := container * element.

Definition str_of_nat (n : nat) : string := NilEmpty.string_of_uint (Nat.to_uint n).

Module Page.

Definition add_spacing (lines : nat) : list event :=
  repeat (page, st_write "") lines.

Definition no_data : event :=
  (page, st_warning "No data available for selected filters.").

Definition overview (fdf : frame row) : list event :=
  [ (page, st_markdown "## 📊 Filtered Startup Overview");
    (page, st_write ("Total Startups: " ++ str_of_nat (List.length (rows fdf)))%string);
    (page, if has_homepage_url fdf
           then st_table (head 20 (display_df fdf))
           else st_write_frame (head 20 fdf)) ].

Definition view1 (fdf : frame row) : list event :=
  [ (col1, st_markdown "### 💡 Top Markets by Total Funding");
    (col1, st_barplot "Total Funding (USD)" "Market" (Agg.top_markets (rows fdf))) ].

Definition view2 (fdf : frame row) : list event :=
  [ (col2, st_markdown "### 📈 Total Funding Over Founded Years");
    (col2, st_line "Funding Over Years" (Agg.yearly_funding (rows fdf))) ].

Definition view3 (fdf : frame row) : list event :=
  [ (col1, st_markdown "### 🌍 Startup Count by Country");
    (col1, st_pie "Top Countries by Startup Count" (Agg.country_counts (rows fdf))) ].

Definition view4 (fdf : frame row) : list event :=
  [ (col2, st_markdown "### 📊 Funding Distribution by Status");
    (col2, st_boxplot "Funding Distribution (Log Scale)" (Agg.status_funding (rows fdf))) ].

Definition view5 (fdf : frame row) : list event :=
  [ (col1, st_markdown "### 🔄 Funding Rounds vs Total Funding");
    (col1, if has_funding_rounds fdf
           then st_scatter "Funding Rounds vs Total Funding" (rows fdf)
           else st_info "Funding rounds data not available for scatter plot.") ].

Definition view6 (fdf : frame row) : list event :=
  [ (col2, st_markdown "### 📉 Average Funding per Market");
    (col2, st_barplot "Average Funding (USD)" "Market" (Agg.avg_funding (rows fdf))) ].

Definition view7 (fdf : frame row) : list event :=
  if Agg.has_acquired (rows fdf)
  then [ (col1, st_markdown "### 📈 Acquisition Rate by Market");
         (col1, st_barplot "Acquisition Rate" "Market" (Agg.top_acq (rows fdf))) ]
  else [ (col1, st_info "No acquisitions found in the filtered data.") ].

(** The script from the filter on, for the values [c] the sidebar widgets
    returned: the elements handed to the page, in order.  [st.stop()]
    ends the run after the warning. *)
Definition dashboard (df : frame row) (c : criteria) : list event :=
  let fdf := filtered_df df c in
  if empty fdf then [ no_data ]
  else overview fdf
       ++ view1 fdf ++ add_spacing 2
       ++ view2 fdf ++ add_spacing 3
       ++ view3 fdf ++ add_spacing 3
       ++ view4 fdf ++ add_spacing 3
       ++ view5 fdf ++ add_spacing 3
       ++ view6 fdf ++ add_spacing 3
       ++ view7 fdf.

End Page.

(** ** The two-record example of the specification

    The example fixes market, country, status, year and funding of two
    records; the remaining attributes and the optional columns are left
    open. *)

Module Example.

Section Open.
Variables (name1 name2 url1 url2 : option string).
Variables (rounds1 rounds2 : option Z).
Variables (with_rounds with_url : bool).

Definition row1 : row :=
  {| name := name1; market := Some "software";
     country_code := Some "USA"; status := Some "operating";
     founded_year := 2010; funding_total_usd := 2000000;
     funding_rounds := rounds1; homepage_url := url1 |}.

Definition row2 : row :=
  {| name := name2; market := Some "software";
     country_code := Some "GBR"; status := Some "acquired";
     founded_year := 2010; funding_total_usd := 500000;
     funding_rounds := rounds2; homepage_url := url2 |}.

Definition dataset : frame row :=
  {| has_funding_rounds := with_rounds; has_homepage_url := with_url;
     rows := [row1; row2] |}.

(** status: all, market: all, country: USA, year 2005..2015,
    minimum funding 1_000_000. *)
Definition crit : criteria :=
  {| selected_status := Collector.status_options dataset;
     selected_market := Collector.market_options dataset;
     selected_country := ["USA"];
     founded_range := (2005, 2015)%Z;
     min_funding := 1000000 |}.
End Open.

End Example.

(** ** Properties named by the specification *)

(** The five clauses of the filter predicate, as the specification words
    them. *)
Definition five_clauses (c : criteria) (r : row) : Prop :=
  (exists s, status r = Some s /\ In s (selected_status c)) /\
  (exists m, market r = Some m /\ In m (selected_market c)) /\
  (exists k, country_code r = Some k /\ In k (selected_country c)) /\
  (fst (founded_range c) <= founded_year r <= snd (founded_range c))%Z /\
  (inject_Z (min_funding c) <= funding_total_usd r)%Q.

(** A well-formed http(s) string, as the specification words it: it
    begins with the scheme and its separator. *)
Definition well_formed_http (u : string) : bool :=
  String.prefix "http://" u || String.prefix "https://" u.

(** The cell is a link to [u]. *)
Definition link_to (u : string) : string := ("[Website](" ++ u ++ ")")%string.

(** Descending order of an aggregate: each value is at most every value
    before it. *)
Definition descending {K V : Type} (le : V -> V -> Prop) (l : list (K * V)) : Prop :=
  StronglySorted (fun a b => le (snd b) (snd a)) l.

(** Strictly descending order of an aggregate. *)
Definition strictly_descending {K V : Type} (lt : V -> V -> Prop) (l : list (K * V)) : Prop :=
  Sorted (fun a b => lt (snd b) (snd a)) l.

(** [selects P l l']: [l'] is [l] with exactly the rows satisfying [P]
    kept, in the same order and as often as they occur. *)
Inductive selects {A : Type} (P : A -> Prop) : list A -> list A -> Prop :=
| selects_nil : selects P [] []
| selects_keep x l l' : P x -> selects P l l' -> selects P (x :: l) (x :: l')
| selects_drop x l l' : ~ P x -> selects P l l' -> selects P (x :: l) l'.

(** [result] is the top [n] of [groups] in descending order: the first
    [n] entries of a descending rearrangement of all of [groups]. *)
Definition top_n_descending {K V : Type} (le : V -> V -> Prop) (n : nat)
           (groups result : list (K * V)) : Prop :=
  exists full,
    Permutation full groups /\ descending le full /\ result = firstn n full.

(** The row is of market [m] and status [s]. *)
Definition cell_test (m s : string) (r : row) : bool :=
  has_value (market r) m && has_value (status r) s.

(** The row is of market [m] and its status is not null. *)
Definition with_status (m : string) (r : row) : bool :=
  has_value (market r) m
  && match status r with Some _ => true | None => false end.

(** Number of rows satisfying a test. *)
Definition count_rows (p : row -> bool) (rs : list row) : nat :=
  List.length (filter p rs).

(** ** Slider bounds (lines 27-28) *)

Module Slider.

(** [col.min()] and [col.max()] of an integer column.  An empty column has
    no extremum, and the [int(...)] around it then fails: [None]. *)
Definition min_of (l : list Z) : option Z :=
  match l with
  | [] => None
  | x :: t => Some (fold_left Z.min t x)
  end.

Definition max_of (l : list Z) : option Z :=
  match l with
  | [] => None
  | x :: t => Some (fold_left Z.max t x)
  end.

Definition Qmax (a b : Q) : Q := if Qle_bool a b then b else a.

(** [col.max()] of the funding column. *)
Definition Qmax_of (l : list Q) : option Q :=
  match l with
  | [] => None
  | x :: t => Some (fold_left Qmax t x)
  end.

(** Bounds of the "Founded Year" slider:
    [int(df['founded_year'].min()), int(df['founded_year'].max())]. *)
Definition founded_year_bounds (df : frame row) : option (Z * Z) :=
  match min_of (map founded_year (rows df)), max_of (map founded_year (rows df)) with
  | Some lo, Some hi => Some (lo, hi)
  | _, _ => None
  end.

(** Bounds of the "Minimum Funding" slider:
    [0, int(df['funding_total_usd'].max())]; [int] truncates. *)
Definition min_funding_bounds (df : frame row) : option (Z * Z) :=
  match Qmax_of (map funding_total_usd (rows df)) with
  | Some m => Some (0%Z, trunc m)
  | None => None
  end.

End Slider.

(** ** Notions used to state further properties *)

(** [c'] admits at least what [c] admits: larger selections, a wider year
    range, a lower threshold. *)
Definition wider (c c' : criteria) : Prop :=
  incl (selected_status c) (selected_status c')
  /\ incl (selected_market c) (selected_market c')
  /\ incl (selected_country c) (selected_country c')
  /\ (fst (founded_range c') <= fst (founded_range c))%Z
  /\ (snd (founded_range c) <= snd (founded_range c'))%Z
  /\ (min_funding c' <= min_funding c)%Z.

(** Every offered value of the three multiselects is selected. *)
Definition all_selected (df : frame row) (c : criteria) : Prop :=
  incl (Collector.status_options df) (selected_status c)
  /\ incl (Collector.market_options df) (selected_market c)
  /\ incl (Collector.country_options df) (selected_country c).

(** A row of a table of finite funding as a row the loader returns. *)
Definition loaded_of (r : row) : loaded_row :=
  {| l_name := name r;
     l_market := market r;
     l_country_code := country_code r;
     l_status := status r;
     l_founded_year := founded_year r;
     l_funding_total_usd := Finite (funding_total_usd r);
     l_funding_rounds := funding_rounds r;
     l_homepage_url := homepage_url r |}.

(** A normalised row written back as a row of numeric cells. *)
Definition numeric_raw (r : row) : raw_row :=
  {| raw_name := name r;
     raw_market := market r;
     raw_country_code := country_code r;
     raw_status := status r;
     raw_founded_year := Num (inject_Z (founded_year r));
     raw_funding := Num (funding_total_usd r);
     raw_funding_rounds := funding_rounds r;
     raw_homepage_url := homepage_url r |}.

Definition numeric_frame (df : frame row) : frame raw_row :=
  {| has_funding_rounds := has_funding_rounds df;
     has_homepage_url := has_homepage_url df;
     rows := map numeric_raw (rows df) |}.

(** The sign of a number of a numeric column. *)
Definition non_negative (x : number) : Prop :=
  match x with
  | Finite q => (0 <= q)%Q
  | Infinite negative => negative = false
  end.

(** Order of strings, as [sorted] compares them. *)
Definition string_le (a b : string) : Prop := String.leb a b = true.

(** Ascending order of a list of keys: each key is below the next and
    differs from it. *)
Definition ascending {A : Type} (le : A -> A -> Prop) (l : list A) : Prop :=
  Sorted (fun a b => le a b /\ a <> b) l.

(** [result] holds the best of [groups]: what is left out is a
    rearrangement away, and no entry left out has a larger value than an
    entry kept. *)
Definition dominates {K V : Type} (le : V -> V -> Prop)
           (groups result : list (K * V)) : Prop :=
  exists rest,
    Permutation (result ++ rest) groups
    /\ forall a b, In a result -> In b rest -> le (snd b) (snd a).

(** ** Concrete inputs used below *)

Module Inputs.

Definition null_status_row : row :=
  {| name := Some "x"; market := Some "software"; country_code := Some "USA";
     status := None; founded_year := 2010; funding_total_usd := 2000000;
     funding_rounds := None; homepage_url := None |}.

Definition null_status_frame : frame row :=
  {| has_funding_rounds := false; has_homepage_url := false;
     rows := [null_status_row] |}.

(** Every offered value selected, and ranges that admit the row. *)
Definition select_all (df : frame row) : criteria :=
  {| selected_status := Collector.default_status df;
     selected_market := Collector.market_options df;
     selected_country := Collector.country_options df;
     founded_range := (0, 3000)%Z;
     min_funding := 0 |}.

(** A table whose two numeric cells are negative numbers. *)
Definition negative_raw : raw_row :=
  {| raw_name := Some "x"; raw_market := Some "software";
     raw_country_code := Some "USA"; raw_status := Some "operating";
     raw_founded_year := Num (-5); raw_funding := Num (-1);
     raw_funding_rounds := None; raw_homepage_url := None |}.

Definition negative_csv : frame raw_row :=
  {| has_funding_rounds := false; has_homepage_url := false;
     rows := [negative_raw] |}.

(** A parser that accepts no text at all. *)
Definition parse_nothing (s : string) : option number := None.

(** A parser that reads the text inf as the infinity and nothing else. *)
Definition parse_inf (s : string) : option number :=
  if String.eqb s "inf" then Some (Infinite false) else None.

(** The cast out of range as x86-64 leaves it. *)
Definition x86_overflow (q : Q) : Z := int64_min.

(** A table with a founded_year of 10^30, and one with the text inf. *)
Definition huge_year_csv : frame raw_row :=
  {| has_funding_rounds := false; has_homepage_url := false;
     rows := [ {| raw_name := None; raw_market := None;
                  raw_country_code := None; raw_status := None;
                  raw_founded_year := Num 1000000000000000000000000000000;
                  raw_funding := Inf false;
                  raw_funding_rounds := None; raw_homepage_url := None |} ] |}.

Definition inf_year_csv : frame raw_row :=
  {| has_funding_rounds := false; has_homepage_url := false;
     rows := [ {| raw_name := None; raw_market := None;
                  raw_country_code := None; raw_status := None;
                  raw_founded_year := Str "unknown"; raw_funding := Num 1;
                  raw_funding_rounds := None; raw_homepage_url := None |};
               {| raw_name := None; raw_market := None;
                  raw_country_code := None; raw_status := None;
                  raw_founded_year := Str "inf"; raw_funding := Num 1;
                  raw_funding_rounds := None; raw_homepage_url := None |} ] |}.

(** A table with a null cell, a text cell and two numeric cells. *)
Definition mixed_csv : frame raw_row :=
  {| has_funding_rounds := false; has_homepage_url := false;
     rows := [ {| raw_name := None; raw_market := None;
                  raw_country_code := None; raw_status := None;
                  raw_founded_year := Str "unknown"; raw_funding := NaN;
                  raw_funding_rounds := None; raw_homepage_url := None |};
               {| raw_name := None; raw_market := None;
                  raw_country_code := None; raw_status := None;
                  raw_founded_year := Num (4021 # 2); raw_funding := Num 7;
                  raw_funding_rounds := None; raw_homepage_url := None |} ] |}.

(** Two markets with the same funding, country, status and year. *)
Definition tie_frame : frame row :=
  {| has_funding_rounds := false; has_homepage_url := false;
     rows := [ {| name := Some "x"; market := Some "a";
                  country_code := Some "USA"; status := Some "acquired";
                  founded_year := 2010; funding_total_usd := 1000000;
                  funding_rounds := None; homepage_url := None |};
               {| name := Some "y"; market := Some "b";
                  country_code := Some "GBR"; status := Some "acquired";
                  founded_year := 2010; funding_total_usd := 1000000;
                  funding_rounds := None; homepage_url := None |} ] |}.

(** The defaults of the sidebar on a frame. *)
Definition default_crit (df : frame row) : criteria :=
  {| selected_status := Collector.default_status df;
     selected_market := Collector.default_market df;
     selected_country := Collector.default_country;
     founded_range := Collector.default_founded_range;
     min_funding := Collector.default_min_funding |}.

(** Fewer statuses and countries, a narrower year range, a higher
    threshold. *)
Definition narrow_crit : criteria :=
  {| selected_status := ["acquired"]; selected_market := ["a"; "b"];
     selected_country := ["USA"]; founded_range := (2008, 2012)%Z;
     min_funding := 500000 |}.

Definition wide_crit : criteria :=
  {| selected_status := ["operating"; "acquired"];
     selected_market := ["a"; "b"; "c"];
     selected_country := ["USA"; "GBR"]; founded_range := (2005, 2015)%Z;
     min_funding := 0 |}.

Definition no_status_crit : criteria :=
  {| selected_status := []; selected_market := ["a"; "b"];
     selected_country := ["USA"; "GBR"]; founded_range := (2005, 2015)%Z;
     min_funding := 0 |}.

(** A row of the table read whose founded_year cell is text. *)
Definition unknown_year_raw : raw_row :=
  {| raw_name := Some "x"; raw_market := Some "software";
     raw_country_code := Some "USA"; raw_status := Some "operating";
     raw_founded_year := Str "unknown"; raw_funding := Num 2000000;
     raw_funding_rounds := None; raw_homepage_url := None |}.

Definition unknown_year_csv : frame raw_row :=
  {| has_funding_rounds := false; has_homepage_url := false;
     rows := [unknown_year_raw] |}.

(** The same row and table after the load. *)
Definition unknown_year_row : row :=
  {| name := Some "x"; market := Some "software";
     country_code := Some "USA"; status := Some "operating";
     founded_year := 0; funding_total_usd := 2000000;
     funding_rounds := None; homepage_url := None |}.

Definition unknown_year_frame : frame row :=
  {| has_funding_rounds := false; has_homepage_url := false;
     rows := [unknown_year_row] |}.

Definition empty_crit : criteria :=
  {| selected_status := ["operating"]; selected_market := ["software"];
     selected_country := ["USA"]; founded_range := (2005, 2015)%Z;
     min_funding := 3000000 |}.

End Inputs.

(** * Proofs *)

(** ** Filter engine *)

Lemma isin_spec (v : option string) (values : list string) :
  isin v values = true <-> exists s, v = Some s /\ In s values.
Proof.
  destruct v as [s|]; simpl.
  - rewrite existsb_exists. split.
    + intros (x & Hin & Heq). apply String.eqb_eq in Heq. subst x. eauto.
    + intros (x & Hx & Hin). injection Hx as <-. exists s. split; auto.
      apply String.eqb_refl.
  - split; [discriminate | intros (s & Hs & _); discriminate].
Qed.

Lemma between_spec (x lo hi : Z) :
  between x lo hi = true <-> (lo <= x <= hi)%Z.
Proof. unfold between. rewrite andb_true_iff, !Z.leb_le. tauto. Qed.

Lemma ge_threshold_spec (x : Q) (t : Z) :
  ge_threshold x t = true <-> (inject_Z t <= x)%Q.
Proof. unfold ge_threshold. apply Qle_bool_iff. Qed.

Lemma mask_spec (c : criteria) (r : row) :
  mask c r = true <-> five_clauses c r.
Proof.
  unfold mask, five_clauses.
  rewrite !andb_true_iff, !isin_spec, between_spec, ge_threshold_spec.
  tauto.
Qed.

Lemma filter_selects {A : Type} (f : A -> bool) (P : A -> Prop) (l : list A) :
  (forall x, f x = true <-> P x) -> selects P l (filter f l).
Proof.
  intros Hf. induction l as [|x l IH]; simpl.
  - constructor.
  - destruct (f x) eqn:E.
    + apply selects_keep; [apply Hf, E | exact IH].
    + apply selects_drop; [|exact IH].
      intros HP. apply Hf in HP. congruence.
Qed.

(** C1: a row is in the Filtered View exactly when it is a row of the
    Dataset and satisfies all five clauses (status, market and country
    selected, founded year within the inclusive range, funding at least
    the threshold); the view keeps those rows, and only those, in the
    Dataset's order. *)
Theorem filtered_view_exact (df : frame row) (c : criteria) :
  (forall r, In r (rows (filtered_df df c)) <-> In r (rows df) /\ five_clauses c r)
  /\ selects (five_clauses c) (rows df) (rows (filtered_df df c)).
Proof.
  split.
  - intros r. simpl. rewrite filter_In, mask_spec. reflexivity.
  - simpl. apply filter_selects. intros r. apply mask_spec.
Qed.

(** C2: the Filtered View is a subset of the Dataset, its row count is at
    most the Dataset's, and every row of it satisfies the five clauses. *)
Theorem filtered_view_subset (df : frame row) (c : criteria) :
  incl (rows (filtered_df df c)) (rows df)
  /\ (List.length (rows (filtered_df df c)) <= List.length (rows df))%nat
  /\ Forall (five_clauses c) (rows (filtered_df df c)).
Proof.
  split; [|split].
  - intros r Hr. simpl in Hr. apply filter_In in Hr. tauto.
  - simpl. apply filter_length_le.
  - apply Forall_forall. intros r Hr. simpl in Hr.
    apply filter_In in Hr. apply mask_spec. tauto.
Qed.

Lemma filter_idem {A : Type} (f : A -> bool) (l : list A) :
  filter f (filter f l) = filter f l.
Proof.
  induction l as [|x l IH]; simpl; [reflexivity|].
  destruct (f x) eqn:E; simpl; [rewrite E, IH|]; auto.
Qed.

(** C7: filtering is idempotent: filtering a Filtered View again with the
    same criteria leaves it unchanged, so applying the criteria twice
    gives the same view as applying them once. *)
Theorem filter_idempotent (df : frame row) (c : criteria) :
  filtered_df (filtered_df df c) c = filtered_df df c.
Proof.
  unfold filtered_df. simpl. rewrite filter_idem. reflexivity.
Qed.

(** *** What the controls offer *)

Lemma dropna_In (col : list (option string)) (s : string) :
  In s (dropna col) <-> In (Some s) col.
Proof.
  induction col as [|[x|] t IH]; simpl.
  - tauto.
  - rewrite IH. split; intros [H|H]; auto; left; congruence.
  - rewrite IH. split; [auto|]. intros [H|H]; [discriminate|auto].
Qed.

Lemma unique_In (l : list string) (s : string) :
  In s (unique l) <-> In s l.
Proof.
  induction l as [|x t IH]; simpl; [tauto|].
  rewrite filter_In, IH, negb_true_iff, String.eqb_neq.
  destruct (string_dec x s); intuition.
Qed.

Lemma unique_NoDup (l : list string) : NoDup (unique l).
Proof.
  induction l as [|x t IH]; simpl; constructor.
  - rewrite filter_In, negb_true_iff, String.eqb_neq. tauto.
  - apply NoDup_filter, IH.
Qed.

Lemma insert_perm {A : Type} (leb : A -> A -> bool) (x : A) (l : list A) :
  Permutation (insert leb x l) (x :: l).
Proof.
  induction l as [|y t IH]; simpl; [reflexivity|].
  destruct (leb x y); [reflexivity|].
  rewrite IH. apply perm_swap.
Qed.

Lemma sort_by_perm {A : Type} (leb : A -> A -> bool) (l : list A) :
  Permutation (sort_by leb l) l.
Proof.
  induction l as [|x t IH]; simpl; [reflexivity|].
  rewrite insert_perm. constructor. exact IH.
Qed.

Lemma sorted_In (l : list string) (s : string) : In s (sorted l) <-> In s l.
Proof.
  split; apply Permutation_in;
    [|symmetry]; apply sort_by_perm.
Qed.

Lemma sorted_NoDup (l : list string) : NoDup l -> NoDup (sorted l).
Proof.
  apply Permutation_NoDup. symmetry. apply sort_by_perm.
Qed.

Lemma group_keys_In (col : list (option string)) (s : string) :
  In s (Agg.group_keys col) <-> In (Some s) col.
Proof.
  unfold Agg.group_keys. rewrite sorted_In, unique_In. apply dropna_In.
Qed.

Lemma group_keys_NoDup (col : list (option string)) :
  NoDup (Agg.group_keys col).
Proof. apply sorted_NoDup, unique_NoDup. Qed.

(** Each multiselect offers the distinct non-null values of its column,
    and nothing else. *)
Lemma options_are_values (df : frame row) :
  (NoDup (Collector.status_options df)
   /\ forall s, In s (Collector.status_options df)
                <-> exists r, In r (rows df) /\ status r = Some s)
  /\ (NoDup (Collector.market_options df)
      /\ forall s, In s (Collector.market_options df)
                   <-> exists r, In r (rows df) /\ market r = Some s)
  /\ (NoDup (Collector.country_options df)
      /\ forall s, In s (Collector.country_options df)
                   <-> exists r, In r (rows df) /\ country_code r = Some s).
Proof.
  repeat split; try apply group_keys_NoDup.
  all: try (intros H; apply group_keys_In, in_map_iff in H;
            destruct H as (r & E & Hr); eauto).
  all: intros (r & Hr & E); apply group_keys_In, in_map_iff; eauto.
Qed.

(** C10: a record whose status, market or country_code is null is never in
    the Filtered View, whatever the selections are (the selections are
    lists of offered values, which are non-null); in particular not when
    every offered value is selected. *)
Theorem null_rows_filtered_out (df : frame row) (c : criteria) (r : row) :
  status r = None \/ market r = None \/ country_code r = None ->
  ~ In r (rows (filtered_df df c)).
Proof.
  intros Hnull Hin. simpl in Hin. apply filter_In in Hin.
  destruct Hin as [_ Hm]. apply mask_spec in Hm.
  destruct Hm as ((s & Hs & _) & (m & Hmk & _) & (k & Hk & _) & _).
  destruct Hnull as [H|[H|H]]; congruence.
Qed.

Lemma null_rows_filtered_out_witness :
  (status Inputs.null_status_row = None \/ market Inputs.null_status_row = None
   \/ country_code Inputs.null_status_row = None)
  /\ In Inputs.null_status_row (rows Inputs.null_status_frame)
  /\ ~ In Inputs.null_status_row
        (rows (filtered_df Inputs.null_status_frame (Inputs.select_all Inputs.null_status_frame))).
Proof.
  split; [left; reflexivity|]. split; [left; reflexivity|].
  apply (null_rows_filtered_out Inputs.null_status_frame
           (Inputs.select_all Inputs.null_status_frame) Inputs.null_status_row).
  left; reflexivity.
Defined.

(** ** Empty view *)

(** C3: when the Filtered View is empty the page body is the warning and
    nothing else: no aggregate is computed into it and no chart is
    placed. *)
Theorem empty_view_only_warning (df : frame row) (c : criteria) :
  empty (filtered_df df c) = true ->
  Page.dashboard df c
  = [ (page, st_warning "No data available for selected filters.") ].
Proof.
  intros H. unfold Page.dashboard. rewrite H. reflexivity.
Qed.

Lemma empty_view_only_warning_witness :
  empty (filtered_df (Example.dataset None None None None None None false false)
           Inputs.empty_crit) = true
  /\ Page.dashboard (Example.dataset None None None None None None false false)
           Inputs.empty_crit
     = [ (page, st_warning "No data available for selected filters.") ].
Proof.
  split; [reflexivity|].
  apply empty_view_only_warning. reflexivity.
Defined.

(** ** Table summary *)

Lemma prefix_app (p x : string) :
  String.prefix p x = true <-> exists rest, x = (p ++ rest)%string.
Proof.
  revert x. induction p as [|a p IH]; intros x.
  - destruct x; simpl; split; eauto.
  - destruct x as [|b x]; simpl.
    + split; [discriminate | intros (rest & H); discriminate].
    + destruct (ascii_dec a b) as [->|Hne].
      * rewrite IH. split; intros (rest & H); exists rest; congruence.
      * split; [discriminate | intros (rest & H); congruence].
Qed.

Lemma link_to_nonempty (u : string) : link_to u <> "".
Proof. unfold link_to. simpl. discriminate. Qed.

Lemma append_close_inj (u v : string) :
  (u ++ ")")%string = (v ++ ")")%string -> u = v.
Proof.
  revert v. induction u as [|a u IH]; intros [|b v] H; simpl in H.
  - reflexivity.
  - injection H as _ H. destruct v; discriminate.
  - injection H as _ H. destruct u; discriminate.
  - injection H as -> H. f_equal. apply IH, H.
Qed.

Lemma link_to_inj (u v : string) : link_to u = link_to v -> u = v.
Proof.
  unfold link_to. intros H. apply append_close_inj.
  cbn [append] in H. repeat injection H as H. exact H.
Qed.

Lemma website_cell_link (x : option string) (u : string) :
  website_cell x = link_to u
  <-> x = Some u /\ String.prefix "http" u = true.
Proof.
  unfold website_cell, startswith. destruct x as [v|].
  - destruct (String.prefix "http" v) eqn:E; fold (link_to v).
    + split.
      * intros H. apply link_to_inj in H. subst v. auto.
      * intros (H & _). injection H as ->. reflexivity.
    + split.
      * intros H. symmetry in H. exfalso. revert H. apply link_to_nonempty.
      * intros (H & H'). injection H as ->. congruence.
  - split.
    + intros H. symmetry in H. exfalso. revert H. apply link_to_nonempty.
    + intros (H & _). discriminate.
Qed.

Lemma website_cell_empty (x : option string) :
  website_cell x = ""
  <-> ~ exists u, x = Some u /\ String.prefix "http" u = true.
Proof.
  unfold website_cell, startswith. destruct x as [v|].
  - destruct (String.prefix "http" v) eqn:E; fold (link_to v).
    + split.
      * intros H. exfalso. revert H. apply link_to_nonempty.
      * intros H. exfalso. apply H. eauto.
    + split; [|reflexivity].
      intros _ (u & H & H'). injection H as ->. congruence.
  - split; [|reflexivity]. intros _ (u & H & _). discriminate.
Qed.

Lemma well_formed_http_prefix (u : string) :
  well_formed_http u = true -> String.prefix "http" u = true.
Proof.
  unfold well_formed_http. intros H. apply orb_true_iff in H.
  destruct H as [H|H]; apply prefix_app in H; destruct H as (rest & ->);
    reflexivity.
Qed.

(** C9 as stated fails: a text that begins with the letters http but is
    not an http(s) address is not rendered as the empty string; it is
    rendered as a link. *)
Lemma homepage_link_not_only_well_formed :
  ~ (forall x : option string,
        (x = None \/ exists u, x = Some u /\ well_formed_http u = false) ->
        website_cell x = "").
Proof.
  intros H.
  assert (E : website_cell (Some "httpx") = "").
  { apply H. right. exists "httpx". split; reflexivity. }
  vm_compute in E. discriminate E.
Qed.

(** C9, amended: the table summary holds the first 20 filtered rows at
    most, and in it a homepage_url cell is a link exactly when the value
    is non-null text beginning with the four characters http (every
    well-formed http(s) address is such a text); every other value, null
    included, gives the empty string. *)
Theorem homepage_link_rule (fdf : frame row) :
  head 20 (display_df fdf) = map display_of (head 20 fdf)
  /\ (List.length (head 20 (display_df fdf)) <= 20)%nat
  /\ forall r : row,
      (forall u, d_homepage_url (display_of r) = link_to u
                 <-> homepage_url r = Some u
                     /\ exists rest, u = ("http" ++ rest)%string)
      /\ (d_homepage_url (display_of r) = ""
          <-> ~ exists rest, homepage_url r = Some ("http" ++ rest)%string)
      /\ (forall u, well_formed_http u = true ->
                    website_cell (Some u) = link_to u).
Proof.
  split; [|split].
  - unfold head, display_df. cbn [rows]. apply firstn_map.
  - unfold head. apply firstn_le_length.
  - intros r. cbn [display_of d_homepage_url]. split; [|split].
    + intros u. rewrite website_cell_link, prefix_app. reflexivity.
    + rewrite website_cell_empty. split; intros H H'; apply H.
      * destruct H' as (rest & E). exists ("http" ++ rest)%string.
        split; [exact E | apply prefix_app; eauto].
      * destruct H' as (u & E & Hp). apply prefix_app in Hp.
        destruct Hp as (rest & ->). eauto.
    + intros u Hu. apply website_cell_link. split; [reflexivity|].
      apply well_formed_http_prefix, Hu.
Qed.

(** ** Loader *)

Lemma trunc_nonneg (q : Q) : (0 <= q)%Q -> (0 <= trunc q)%Z.
Proof.
  unfold Qle, trunc. simpl. intros H.
  apply Z.quot_pos; lia.
Qed.

Lemma sequence_Some {A : Type} (l : list (option A)) (l' : list A) :
  sequence l = Some l' -> Forall2 (fun o x => o = Some x) l l'.
Proof.
  revert l'. induction l as [|[x|] t IH]; simpl; intros l' H.
  - injection H as <-. constructor.
  - destruct (sequence t) as [t'|]; [|discriminate].
    injection H as <-. constructor; [reflexivity | apply IH; reflexivity].
  - discriminate.
Qed.

Lemma sequence_None {A : Type} (l : list (option A)) :
  sequence l = None <-> In None l.
Proof.
  induction l as [|[x|] t IH]; simpl.
  - split; [discriminate | tauto].
  - destruct (sequence t) as [t'|].
    + split; [discriminate|]. intros [H|H]; [discriminate|].
      apply IH in H. discriminate.
    + split; [|reflexivity]. intros _. right. apply IH. reflexivity.
  - split; [auto | reflexivity].
Qed.

Lemma load_row_None (parse_number : string -> option number)
      (cast_overflow : Q -> Z) (raw : raw_row) :
  Loader.load_row parse_number cast_overflow raw = None
  <-> exists negative,
      Loader.to_numeric parse_number (raw_founded_year raw)
      = Some (Infinite negative).
Proof.
  unfold Loader.load_row.
  destruct (Loader.to_numeric parse_number (raw_founded_year raw)) as [[q|b]|];
    cbn [Loader.fillna Loader.astype_int].
  - destruct (in_int64 (trunc q)); split;
      [discriminate | intros (b & H); discriminate
      | discriminate | intros (b & H); discriminate].
  - split; eauto.
  - change (trunc 0) with 0%Z. cbn.
    split; [discriminate | intros (b & H); discriminate].
Qed.

Example load_mixed_cells :
  option_map (fun df => map (fun r => (l_founded_year r, l_funding_total_usd r))
                            (rows df))
    (Loader.load_data Inputs.parse_nothing Inputs.x86_overflow Inputs.mixed_csv)
  = Some [ (0%Z, Finite 0); (2010%Z, Finite 7) ].
Proof. reflexivity. Qed.

Example load_huge_year :
  option_map (fun df => map (fun r => (l_founded_year r, l_funding_total_usd r))
                            (rows df))
    (Loader.load_data Inputs.parse_nothing Inputs.x86_overflow Inputs.huge_year_csv)
  = Some [ ((-9223372036854775808)%Z, Infinite false) ].
Proof. reflexivity. Qed.

Example load_inf_year :
  Loader.load_data Inputs.parse_inf Inputs.x86_overflow Inputs.inf_year_csv = None.
Proof. reflexivity. Qed.

Example astype_int_truncates :
  Loader.astype_int Inputs.x86_overflow (Finite (-7 # 2)) = Some (-3)%Z
  /\ Loader.astype_int Inputs.x86_overflow (Finite (7 # 2)) = Some 3%Z
  /\ Loader.astype_int Inputs.x86_overflow (Infinite true) = None.
Proof. repeat split; reflexivity. Qed.

(** C6 as stated fails: a cell holding a negative number stays negative
    after normalisation. *)
Lemma loader_keeps_negative_numbers :
  ~ (forall (parse_number : string -> option number) (cast_overflow : Q -> Z)
            (csv : frame raw_row) (df : frame loaded_row),
        Loader.load_data parse_number cast_overflow csv = Some df ->
        Forall (fun r => (0 <= l_founded_year r)%Z
                         /\ non_negative (l_funding_total_usd r))
               (rows df)).
Proof.
  intros H.
  specialize (H Inputs.parse_nothing Inputs.x86_overflow Inputs.negative_csv
                _ eq_refl).
  inversion H as [|r l [Hy _] _]. vm_compute in Hy. apply Hy. reflexivity.
Qed.

(** C6, amended: after normalisation founded_year is an integer and
    funding_total_usd is a number of the column, neither of them null
    and neither of them bound to be non-negative.  A cell that is null
    or fails to parse as a number becomes 0 and never aborts the load:
    the load is aborted by an infinite founded_year and by nothing
    else, and a load that completes gives one row for every row read. *)
Theorem load_data_normalises (parse_number : string -> option number)
        (cast_overflow : Q -> Z) (csv : frame raw_row) :
  (forall df,
      Loader.load_data parse_number cast_overflow csv = Some df ->
      Forall2
        (fun raw r =>
           (Loader.to_numeric parse_number (raw_founded_year raw) = None ->
            l_founded_year r = 0%Z)
           /\ (Loader.to_numeric parse_number (raw_funding raw) = None ->
               l_funding_total_usd r = Finite 0))
        (rows csv) (rows df))
  /\ (Loader.load_data parse_number cast_overflow csv = None
      <-> exists raw negative,
          In raw (rows csv)
          /\ Loader.to_numeric parse_number (raw_founded_year raw)
             = Some (Infinite negative)).
Proof.
  unfold Loader.load_data. split.
  - intros df H.
    destruct (sequence (map (Loader.load_row parse_number cast_overflow) (rows csv)))
      as [l|] eqn:E; [|discriminate].
    injection H as <-. cbn [rows].
    apply sequence_Some in E. revert l E.
    induction (rows csv) as [|raw t IH]; intros l E; inversion E; subst.
    + constructor.
    + constructor; [|apply IH; assumption].
      match goal with H : Loader.load_row _ _ _ = Some _ |- _ => rename H into Hr end.
      unfold Loader.load_row in Hr.
      destruct (Loader.to_numeric parse_number (raw_founded_year raw)) as [x|] eqn:Ey.
      * destruct (Loader.astype_int cast_overflow (Loader.fillna (Finite 0) (Some x)));
          [|discriminate].
        injection Hr as <-. cbn [l_founded_year l_funding_total_usd].
        split; [discriminate|]. intros ->. reflexivity.
      * cbn in Hr. injection Hr as <-. cbn [l_founded_year l_funding_total_usd].
        split; [reflexivity|]. intros ->. reflexivity.
  - destruct (sequence (map (Loader.load_row parse_number cast_overflow) (rows csv)))
      as [l|] eqn:E.
    + split; [discriminate|]. intros (raw & b & Hin & Hinf). exfalso.
      assert (N : In None (map (Loader.load_row parse_number cast_overflow) (rows csv))).
      { apply in_map_iff. exists raw. split; [|exact Hin].
        apply load_row_None. eauto. }
      apply sequence_None in N. congruence.
    + split; [|reflexivity]. intros _.
      apply sequence_None, in_map_iff in E. destruct E as (raw & Hn & Hin).
      apply load_row_None in Hn. destruct Hn as (b & Hb). eauto.
Qed.

(** ** The specification's example *)

(** C8: on the two-record Dataset with all statuses and markets selected,
    country USA, years 2005..2015 and minimum funding 1_000_000, the
    Filtered View is the first row alone, the top-markets aggregate is
    software with 2_000_000, and the acquisition-rate view is skipped
    with its notice, no acquired row being left. *)
Theorem spec_example (name1 name2 url1 url2 : option string)
        (rounds1 rounds2 : option Z) (with_rounds with_url : bool) :
  selected_status (Example.crit name1 name2 url1 url2 rounds1 rounds2 with_rounds with_url)
  = ["acquired"; "operating"]
  /\ selected_market (Example.crit name1 name2 url1 url2 rounds1 rounds2 with_rounds with_url)
     = ["software"]
  /\ rows (filtered_df
             (Example.dataset name1 name2 url1 url2 rounds1 rounds2 with_rounds with_url)
             (Example.crit name1 name2 url1 url2 rounds1 rounds2 with_rounds with_url))
     = [Example.row1 name1 url1 rounds1]
  /\ Agg.top_markets [Example.row1 name1 url1 rounds1] = [("software", 2000000%Q)]
  /\ Agg.has_acquired [Example.row1 name1 url1 rounds1] = false
  /\ Page.view7
       (filtered_df
          (Example.dataset name1 name2 url1 url2 rounds1 rounds2 with_rounds with_url)
          (Example.crit name1 name2 url1 url2 rounds1 rounds2 with_rounds with_url))
     = [ (col1, st_info "No acquisitions found in the filtered data.") ]
  /\ exists before,
      Page.dashboard
        (Example.dataset name1 name2 url1 url2 rounds1 rounds2 with_rounds with_url)
        (Example.crit name1 name2 url1 url2 rounds1 rounds2 with_rounds with_url)
      = before
        ++ [ (col1, st_markdown "### 💡 Top Markets by Total Funding");
             (col1, st_barplot "Total Funding (USD)" "Market" [("software", 2000000%Q)]) ]
        ++ Page.add_spacing 2
        ++ Page.view2 (mkFrame with_rounds with_url [Example.row1 name1 url1 rounds1])
        ++ Page.add_spacing 3
        ++ Page.view3 (mkFrame with_rounds with_url [Example.row1 name1 url1 rounds1])
        ++ Page.add_spacing 3
        ++ Page.view4 (mkFrame with_rounds with_url [Example.row1 name1 url1 rounds1])
        ++ Page.add_spacing 3
        ++ Page.view5 (mkFrame with_rounds with_url [Example.row1 name1 url1 rounds1])
        ++ Page.add_spacing 3
        ++ Page.view6 (mkFrame with_rounds with_url [Example.row1 name1 url1 rounds1])
        ++ Page.add_spacing 3
        ++ [ (col1, st_info "No acquisitions found in the filtered data.") ].
Proof.
  repeat split; try reflexivity.
  eexists. unfold Page.dashboard.
  change (filtered_df _ _) with (mkFrame with_rounds with_url [Example.row1 name1 url1 rounds1]).
  cbn [empty rows]. reflexivity.
Qed.

(** ** Ordered aggregates *)

Example unique_keeps_first : unique ["b"; "a"; "b"; "c"; "a"] = ["b"; "a"; "c"].
Proof. reflexivity. Qed.

Example sorted_code_points : sorted ["b"; "a"; "B"; "ab"] = ["B"; "a"; "ab"; "b"].
Proof. reflexivity. Qed.

Example sort_values_desc_keeps_ties :
  sort_values_desc Nat.leb [("a", 1); ("b", 2); ("c", 1); ("d", 3)]%nat
  = [("d", 3); ("b", 2); ("a", 1); ("c", 1)]%nat.
Proof. reflexivity. Qed.

Example tie_top_markets :
  Agg.top_markets (rows Inputs.tie_frame) = [("a", 1000000%Q); ("b", 1000000%Q)].
Proof. reflexivity. Qed.

Section Descending.
Context {K V : Type}.
Variables (leb : V -> V -> bool) (le : V -> V -> Prop).
Hypothesis leb_le : forall a b, leb a b = true <-> le a b.
Hypothesis le_total : forall a b, le a b \/ le b a.
Hypothesis le_trans : forall a b c, le a b -> le b c -> le a c.

Lemma insert_desc_perm (x : K * V) (l : list (K * V)) :
  Permutation (insert_desc leb x l) (x :: l).
Proof.
  induction l as [|y t IH]; simpl; [reflexivity|].
  destruct (leb (snd y) (snd x)); [reflexivity|].
  rewrite IH. apply perm_swap.
Qed.

Lemma sort_values_desc_perm (l : list (K * V)) :
  Permutation (sort_values_desc leb l) l.
Proof.
  induction l as [|x t IH]; simpl; [reflexivity|].
  rewrite insert_desc_perm. constructor. exact IH.
Qed.

Lemma insert_desc_descending (x : K * V) (l : list (K * V)) :
  descending le l -> descending le (insert_desc leb x l).
Proof.
  unfold descending. intros Hl. induction Hl as [|y t Ht IH Hy]; simpl.
  - repeat constructor.
  - destruct (leb (snd y) (snd x)) eqn:E.
    + apply leb_le in E. constructor; [constructor; assumption|].
      constructor; [exact E|].
      eapply Forall_impl; [|exact Hy]. simpl. intros z Hz. eauto.
    + constructor; [exact IH|].
      eapply Permutation_Forall; [symmetry; apply insert_desc_perm|].
      constructor; [|exact Hy].
      destruct (le_total (snd x) (snd y)) as [H|H]; [exact H|].
      apply leb_le in H. congruence.
Qed.

Lemma sort_values_desc_descending (l : list (K * V)) :
  descending le (sort_values_desc leb l).
Proof.
  induction l as [|x t IH]; simpl.
  - constructor.
  - apply insert_desc_descending, IH.
Qed.

Lemma head_sort_top_n (n : nat) (l : list (K * V)) :
  top_n_descending le n l (firstn n (sort_values_desc leb l)).
Proof.
  exists (sort_values_desc leb l).
  split; [apply sort_values_desc_perm|].
  split; [apply sort_values_desc_descending|reflexivity].
Qed.
End Descending.

Lemma descending_firstn {K V : Type} (le : V -> V -> Prop) (n : nat)
      (l : list (K * V)) :
  descending le l -> descending le (firstn n l).
Proof.
  unfold descending. intros H. revert n.
  induction H as [|x t Ht IH Hx]; intros [|n]; simpl; try constructor.
  - apply IH.
  - apply Forall_forall. intros y Hy.
    rewrite Forall_forall in Hx. apply Hx.
    rewrite <- (firstn_skipn n t). apply in_or_app. left. exact Hy.
Qed.

Lemma Nat_leb_total (a b : nat) : (a <= b)%nat \/ (b <= a)%nat.
Proof. lia. Qed.

Lemma Qle_total (a b : Q) : (a <= b)%Q \/ (b <= a)%Q.
Proof. destruct (Qlt_le_dec a b) as [H|H]; [left; apply Qlt_le_weak, H|right; exact H]. Qed.

(** C4 as stated fails: two markets of equal total, count, mean and rate
    come out next to each other, so the order is not strict. *)
Lemma aggregates_not_strictly_descending :
  ~ (forall (df : frame row) (c : criteria),
        strictly_descending Qlt (Agg.top_markets (rows (filtered_df df c)))
        /\ strictly_descending lt (Agg.country_counts (rows (filtered_df df c)))
        /\ strictly_descending Qlt (Agg.avg_funding (rows (filtered_df df c)))
        /\ strictly_descending Qlt (Agg.top_acq (rows (filtered_df df c)))).
Proof.
  intros H.
  destruct (H Inputs.tie_frame (Inputs.select_all Inputs.tie_frame)) as [H1 _].
  vm_compute in H1.
  inversion H1 as [|x l _ Hd]; subst.
  inversion Hd as [|y l' Hlt]; subst.
  vm_compute in Hlt. discriminate Hlt.
Qed.

(** C4, amended: for every view, aggregators 1, 3, 6 and 7 return the
    first 10, 7, 7 and 7 entries of their groups arranged in descending
    order of the reduction value (sum, count, mean, ratio); groups of
    equal value may follow one another, so each value is at most the ones
    before it, and the result has at most the stated number of entries. *)
Theorem aggregates_descending_top_n (rs : list row) :
  (top_n_descending Qle 10 (Agg.market_sum rs) (Agg.top_markets rs)
   /\ descending Qle (Agg.top_markets rs)
   /\ (List.length (Agg.top_markets rs) <= 10)%nat)
  /\ (top_n_descending le 7 (Agg.counts (map country_code rs))
        (Agg.country_counts rs)
      /\ descending le (Agg.country_counts rs)
      /\ (List.length (Agg.country_counts rs) <= 7)%nat)
  /\ (top_n_descending Qle 7 (Agg.market_mean rs) (Agg.avg_funding rs)
      /\ descending Qle (Agg.avg_funding rs)
      /\ (List.length (Agg.avg_funding rs) <= 7)%nat)
  /\ (top_n_descending Qle 7 (Agg.acq_rate rs) (Agg.top_acq rs)
      /\ descending Qle (Agg.top_acq rs)
      /\ (List.length (Agg.top_acq rs) <= 7)%nat).
Proof.
  unfold Agg.top_markets, Agg.country_counts, Agg.avg_funding, Agg.top_acq,
    Agg.value_counts.
  repeat split;
    try apply firstn_le_length;
    try (apply head_sort_top_n;
         [ apply Qle_bool_iff | apply Qle_total | apply Qle_trans ]);
    try (apply head_sort_top_n;
         [ apply Nat.leb_le | apply Nat_leb_total | apply Nat.le_trans ]);
    try (apply descending_firstn, sort_values_desc_descending;
         [ apply Qle_bool_iff | apply Qle_total | apply Qle_trans ]);
    try (apply descending_firstn, sort_values_desc_descending;
         [ apply Nat.leb_le | apply Nat_leb_total | apply Nat.le_trans ]).
Qed.

(** ** Acquisition rate *)

Example example_status_data :
  Agg.status_data (rows (Example.dataset None None None None None None false false))
  = [("software", [("acquired", 1%nat); ("operating", 1%nat)])].
Proof. reflexivity. Qed.

Example example_top_acq :
  Agg.top_acq (rows (Example.dataset None None None None None None false false))
  = [("software", (1 # 2)%Q)].
Proof. reflexivity. Qed.

Lemma pair_eqb_eq (a b : string * string) : Agg.pair_eqb a b = true <-> a = b.
Proof.
  destruct a as [a1 a2], b as [b1 b2]. unfold Agg.pair_eqb. simpl.
  rewrite andb_true_iff, !String.eqb_eq. split.
  - intros [-> ->]. reflexivity.
  - intros H. injection H as -> ->. auto.
Qed.

Lemma has_value_eq (v : option string) (k : string) :
  has_value v k = true <-> v = Some k.
Proof.
  destruct v as [s|]; simpl.
  - rewrite String.eqb_eq. split; congruence.
  - split; discriminate.
Qed.

Lemma dropna_pairs_In (rs : list row) (m s : string) :
  In (m, s) (Agg.dropna_pairs rs)
  <-> exists r, In r rs /\ market r = Some m /\ status r = Some s.
Proof.
  induction rs as [|r t IH]; simpl.
  - split; [tauto | intros (r & [] & _)].
  - destruct (market r) as [m'|] eqn:Em; [destruct (status r) as [s'|] eqn:Es|].
    + simpl. rewrite IH. split.
      * intros [H|(r' & Hr' & H)].
        -- injection H as -> ->. exists r. auto.
        -- exists r'. auto.
      * intros (r' & [->|Hr'] & Hm & Hs).
        -- left. congruence.
        -- right. eauto.
    + rewrite IH. split.
      * intros (r' & Hr' & H). eauto.
      * intros (r' & [->|Hr'] & Hm & Hs); [congruence | eauto].
    + rewrite IH. split.
      * intros (r' & Hr' & H). eauto.
      * intros (r' & [->|Hr'] & Hm & Hs); [congruence | eauto].
Qed.

Lemma unique_pairs_In (l : list (string * string)) (k : string * string) :
  In k (Agg.unique_pairs l) <-> In k l.
Proof.
  induction l as [|x t IH]; simpl; [tauto|].
  rewrite filter_In, IH, negb_true_iff.
  destruct (Agg.pair_eqb x k) eqn:E.
  - apply pair_eqb_eq in E. subst. intuition congruence.
  - assert (x <> k) by (intros ->; rewrite (proj2 (pair_eqb_eq k k) eq_refl) in E; discriminate).
    intuition.
Qed.

Lemma unique_pairs_NoDup (l : list (string * string)) :
  NoDup (Agg.unique_pairs l).
Proof.
  induction l as [|x t IH]; simpl; constructor.
  - rewrite filter_In, negb_true_iff.
    rewrite (proj2 (pair_eqb_eq x x) eq_refl). intros [_ H]. discriminate.
  - apply NoDup_filter, IH.
Qed.

Lemma pair_keys_In (rs : list row) (m s : string) :
  In (m, s) (Agg.pair_keys rs)
  <-> exists r, In r rs /\ market r = Some m /\ status r = Some s.
Proof.
  unfold Agg.pair_keys.
  rewrite <- dropna_pairs_In, <- (unique_pairs_In (Agg.dropna_pairs rs)).
  split; apply Permutation_in; [|symmetry]; apply sort_by_perm.
Qed.

(** Rows of market [m] and status [s]. *)
Lemma count_zero_iff (p : row -> bool) (rs : list row) :
  count_rows p rs = 0%nat <-> forall r, In r rs -> p r = false.
Proof.
  unfold count_rows. induction rs as [|r t IH]; simpl.
  - split; [intros _ r [] | reflexivity].
  - destruct (p r) eqn:E; simpl.
    + split; [discriminate|]. intros H. rewrite (H r) in E; [discriminate|auto].
    + rewrite IH. split.
      * intros H r' [<-|Hr']; auto.
      * intros H r' Hr'. apply H. auto.
Qed.

Lemma lookup_size_keys (f : string * string -> nat)
      (keys : list (string * string)) (k : string * string) :
  Agg.lookup_size (map (fun k' => (k', f k')) keys) k
  = if existsb (fun k' => Agg.pair_eqb k' k) keys then Some (f k) else None.
Proof.
  unfold Agg.lookup_size. induction keys as [|k' t IH]; simpl; [reflexivity|].
  destruct (Agg.pair_eqb k' k) eqn:E; simpl.
  - apply pair_eqb_eq in E. subst. reflexivity.
  - exact IH.
Qed.

(** A filled cell of the unstacked table is the number of rows of that
    market and status. *)
Lemma unstack_cell (rs : list row) (m s : string) :
  match Agg.lookup_size (Agg.size rs) (m, s) with
  | Some n => n
  | None => 0%nat
  end = count_rows (cell_test m s) rs.
Proof.
  unfold Agg.size.
  rewrite (lookup_size_keys
             (fun k => List.length (filter (fun r => has_value (market r) (fst k)
                                            && has_value (status r) (snd k)) rs))).
  destruct (existsb _ _) eqn:E; [reflexivity|].
  symmetry. apply count_zero_iff. intros r Hr.
  unfold cell_test. apply not_true_is_false. intros H.
  apply andb_true_iff in H. destruct H as [Hm Hs].
  apply has_value_eq in Hm, Hs.
  assert (Hin : In (m, s) (Agg.pair_keys rs)) by (apply pair_keys_In; eauto).
  assert (existsb (fun k' => Agg.pair_eqb k' (m, s)) (Agg.pair_keys rs) = true).
  { apply existsb_exists. exists (m, s). split; [exact Hin|]. apply pair_eqb_eq. reflexivity. }
  congruence.
Qed.

Lemma get_line (g : string -> nat) (col : string) (columns : list string) :
  Agg.get col 0 (map (fun s => (s, g s)) columns)
  = if existsb (String.eqb col) columns then g col else 0%nat.
Proof.
  unfold Agg.get. induction columns as [|s t IH]; simpl; [reflexivity|].
  rewrite String.eqb_sym.
  destruct (String.eqb col s) eqn:E; simpl.
  - apply String.eqb_eq in E. subst. reflexivity.
  - exact IH.
Qed.

Lemma count_rows_cons (p : row -> bool) (r : row) (t : list row) :
  count_rows p (r :: t) = ((if p r then 1 else 0) + count_rows p t)%nat.
Proof. unfold count_rows. simpl. destruct (p r); reflexivity. Qed.

Lemma list_sum_map_add {A : Type} (a b : A -> nat) (l : list A) :
  list_sum (map (fun x => (a x + b x)%nat) l)
  = (list_sum (map a l) + list_sum (map b l))%nat.
Proof. induction l as [|x t IH]; simpl; [reflexivity | rewrite IH; lia]. Qed.

Lemma list_sum_map_zero {A : Type} (a : A -> nat) (l : list A) :
  (forall x, In x l -> a x = 0%nat) -> list_sum (map a l) = 0%nat.
Proof.
  induction l as [|x t IH]; simpl; intros H; [reflexivity|].
  rewrite (H x), IH; auto.
Qed.

Lemma indicator_sum (s0 : string) (l : list string) :
  NoDup l -> In s0 l ->
  list_sum (map (fun s => if String.eqb s0 s then 1%nat else 0%nat) l) = 1%nat.
Proof.
  induction 1 as [|x t Hx Ht IH]; simpl; intros Hin; [tauto|].
  destruct (String.eqb s0 x) eqn:E.
  - apply String.eqb_eq in E. subst x.
    rewrite list_sum_map_zero; [reflexivity|].
    intros y Hy. destruct (String.eqb s0 y) eqn:E'; [|reflexivity].
    apply String.eqb_eq in E'. subst y. tauto.
  - apply String.eqb_neq in E. destruct Hin as [->|Hin]; [tauto|].
    rewrite IH; auto.
Qed.

(** The cells of one line of the table add up to the rows of that market
    whose status is not null. *)
Lemma sum_columns (m : string) (columns : list string) (rs : list row) :
  NoDup columns ->
  (forall r s, In r rs -> market r = Some m -> status r = Some s -> In s columns) ->
  list_sum (map (fun s => count_rows (cell_test m s) rs) columns)
  = count_rows (with_status m) rs.
Proof.
  intros Hnd. induction rs as [|r t IH]; intros Hcov.
  - apply list_sum_map_zero. reflexivity.
  - rewrite (map_ext _ _ (fun s => count_rows_cons (cell_test m s) r t)).
    rewrite (list_sum_map_add
               (fun s => if cell_test m s r then 1%nat else 0%nat)
               (fun s => count_rows (cell_test m s) t)).
    rewrite count_rows_cons, IH
      by (intros r' s' Hr'; apply (Hcov r' s'); right; exact Hr').
    f_equal. unfold cell_test, with_status.
    destruct (has_value (market r) m) eqn:Em; simpl.
    + apply has_value_eq in Em. destruct (status r) as [s0|] eqn:Es; simpl.
      * apply indicator_sum; [exact Hnd|].
        apply (Hcov r s0); auto. left; reflexivity.
      * apply list_sum_map_zero. reflexivity.
    + apply list_sum_map_zero. reflexivity.
Qed.

Lemma size_keys (rs : list row) :
  map fst (Agg.size rs) = Agg.pair_keys rs.
Proof.
  unfold Agg.size. rewrite map_map. simpl. apply map_id.
Qed.

Lemma columns_In (rs : list row) (s : string) :
  In s (sorted (unique (map (fun e => snd (fst e)) (Agg.size rs))))
  <-> exists r m, In r rs /\ market r = Some m /\ status r = Some s.
Proof.
  rewrite sorted_In, unique_In, <- (map_map fst snd), size_keys, in_map_iff.
  split.
  - intros ([m s'] & E & Hin). simpl in E. subst s'.
    apply pair_keys_In in Hin. destruct Hin as (r & Hr). eauto.
  - intros (r & m & Hr). exists (m, s). split; [reflexivity|].
    apply pair_keys_In. eauto.
Qed.

Lemma index_In (rs : list row) (m : string) :
  In m (unique (map (fun e => fst (fst e)) (Agg.size rs)))
  <-> exists r s, In r rs /\ market r = Some m /\ status r = Some s.
Proof.
  rewrite unique_In, <- (map_map fst fst), size_keys, in_map_iff.
  split.
  - intros ([m' s] & E & Hin). simpl in E. subst m'.
    apply pair_keys_In in Hin. destruct Hin as (r & Hr). eauto.
  - intros (r & s & Hr). exists (m, s). split; [reflexivity|].
    apply pair_keys_In. destruct Hr as (? & ? & ?). eauto.
Qed.

(** One line of the table gives the ratio of the acquired rows of its
    market to the rows of that market with a status. *)
Lemma acq_rate_line (rs : list row) (m : string) :
  let line := map (fun s => (s, match Agg.lookup_size (Agg.size rs) (m, s) with
                                | Some n => n
                                | None => 0%nat
                                end))
                  (sorted (unique (map (fun e => snd (fst e)) (Agg.size rs)))) in
  Agg.get "acquired" 0 line = count_rows (cell_test m "acquired") rs
  /\ Agg.sum_axis1 line = count_rows (with_status m) rs.
Proof.
  intros line. subst line. split.
  - rewrite (get_line (fun s => match Agg.lookup_size (Agg.size rs) (m, s) with
                                | Some n => n
                                | None => 0%nat
                                end)).
    destruct (existsb _ _) eqn:E; [apply unstack_cell|].
    symmetry. apply count_zero_iff. intros r Hr.
    apply not_true_is_false. intros H. unfold cell_test in H.
    apply andb_true_iff in H. destruct H as [Hm Hs].
    apply has_value_eq in Hm, Hs.
    assert (Hc : In "acquired" (sorted (unique (map (fun e => snd (fst e)) (Agg.size rs)))))
      by (apply columns_In; eauto).
    assert (existsb (String.eqb "acquired")
              (sorted (unique (map (fun e => snd (fst e)) (Agg.size rs)))) = true).
    { apply existsb_exists. exists "acquired". split; [exact Hc|reflexivity]. }
    congruence.
  - unfold Agg.sum_axis1. rewrite map_map. cbn [snd].
    rewrite (map_ext _ _ (unstack_cell rs m)).
    apply sum_columns.
    + apply sorted_NoDup, unique_NoDup.
    + intros r s Hr Hm Hs. apply columns_In. eauto.
Qed.

Lemma acq_rate_In (rs : list row) (m : string) (q : Q) :
  In (m, q) (Agg.acq_rate rs)
  <-> (exists r s, In r rs /\ market r = Some m /\ status r = Some s)
      /\ q = (Qnat (count_rows (cell_test m "acquired") rs)
              / Qnat (count_rows (with_status m) rs))%Q.
Proof.
  unfold Agg.acq_rate, Agg.status_data, Agg.unstack.
  rewrite map_map. cbn [fst snd]. rewrite in_map_iff.
  split.
  - intros (m' & E & Hin). injection E as -> <-.
    split; [apply index_In, Hin|].
    destruct (acq_rate_line rs m) as [-> ->]. reflexivity.
  - intros (Hin & ->). exists m. split; [|apply index_In, Hin].
    destruct (acq_rate_line rs m) as [-> ->]. reflexivity.
Qed.

Lemma acq_rate_keys (rs : list row) :
  map fst (Agg.acq_rate rs) = unique (map (fun e => fst (fst e)) (Agg.size rs)).
Proof.
  unfold Agg.acq_rate, Agg.status_data, Agg.unstack.
  rewrite !map_map. cbn [fst]. apply map_id.
Qed.

Lemma count_rows_ext (p q : row -> bool) (rs : list row) :
  (forall r, In r rs -> p r = q r) -> count_rows p rs = count_rows q rs.
Proof.
  intros H. unfold count_rows. f_equal. apply filter_ext_in, H.
Qed.

Lemma has_acquired_spec (rs : list row) :
  Agg.has_acquired rs = true <-> exists r, In r rs /\ status r = Some "acquired".
Proof.
  unfold Agg.has_acquired. rewrite existsb_exists.
  split; intros (r & Hr & H); exists r; (split; [exact Hr|]);
    apply has_value_eq; exact H.
Qed.

Lemma filtered_status_not_null (df : frame row) (c : criteria) (r : row) :
  In r (rows (filtered_df df c)) -> exists s, status r = Some s.
Proof.
  simpl. rewrite filter_In, mask_spec.
  intros (_ & (s & Hs & _) & _). eauto.
Qed.

(** C5: the acquisition-rate view is computed exactly when some row of the
    Filtered View has status acquired; otherwise its place is taken by
    the informational notice, and in both cases the six other views are
    on the page before it.  The aggregate has one entry per market of
    the view, whose value is the number of acquired rows of that market
    divided by the number of rows of that market, and the view shows the
    first 7 entries in descending order of that ratio. *)
Theorem acquisition_rate_view (df : frame row) (c : criteria) :
  (Agg.has_acquired (rows (filtered_df df c)) = true
   <-> exists r, In r (rows (filtered_df df c)) /\ status r = Some "acquired")
  /\ ((exists r, In r (rows (filtered_df df c)) /\ status r = Some "acquired") ->
      Page.view7 (filtered_df df c)
      = [ (col1, st_markdown "### 📈 Acquisition Rate by Market");
          (col1, st_barplot "Acquisition Rate" "Market"
                            (Agg.top_acq (rows (filtered_df df c)))) ])
  /\ ((~ exists r, In r (rows (filtered_df df c)) /\ status r = Some "acquired") ->
      Page.view7 (filtered_df df c)
      = [ (col1, st_info "No acquisitions found in the filtered data.") ])
  /\ (rows (filtered_df df c) <> [] ->
      exists before,
        Page.dashboard df c = before ++ Page.view7 (filtered_df df c)
        /\ incl (Page.view1 (filtered_df df c) ++ Page.view2 (filtered_df df c)
                 ++ Page.view3 (filtered_df df c) ++ Page.view4 (filtered_df df c)
                 ++ Page.view5 (filtered_df df c) ++ Page.view6 (filtered_df df c))
                before)
  /\ NoDup (map fst (Agg.acq_rate (rows (filtered_df df c))))
  /\ (forall m, In m (map fst (Agg.acq_rate (rows (filtered_df df c))))
                <-> exists r, In r (rows (filtered_df df c)) /\ market r = Some m)
  /\ (forall m q,
         In (m, q) (Agg.acq_rate (rows (filtered_df df c))) ->
         q = (Qnat (count_rows (cell_test m "acquired") (rows (filtered_df df c)))
              / Qnat (count_rows (fun r => has_value (market r) m)
                                 (rows (filtered_df df c))))%Q)
  /\ top_n_descending Qle 7 (Agg.acq_rate (rows (filtered_df df c)))
                      (Agg.top_acq (rows (filtered_df df c))).
Proof.
  split; [apply has_acquired_spec|].
  split.
  { intros H. apply has_acquired_spec in H. unfold Page.view7. rewrite H. reflexivity. }
  split.
  { intros H. unfold Page.view7.
    destruct (Agg.has_acquired _) eqn:E; [|reflexivity].
    apply has_acquired_spec in E. tauto. }
  split.
  { intros Hne. unfold Page.dashboard.
    destruct (empty (filtered_df df c)) eqn:E.
    - unfold empty in E. destruct (rows (filtered_df df c)); [tauto|discriminate].
    - eexists. split.
      + rewrite !app_assoc. reflexivity.
      + intros e He. rewrite !in_app_iff in He. rewrite !in_app_iff. tauto. }
  split.
  { rewrite acq_rate_keys. apply unique_NoDup. }
  split.
  { intros m. rewrite acq_rate_keys, index_In. split.
    - intros (r & s & Hr & Hm & _). eauto.
    - intros (r & Hr & Hm).
      destruct (filtered_status_not_null df c r Hr) as (s & Hs). eauto. }
  split.
  { intros m q Hin. apply acq_rate_In in Hin. destruct Hin as [_ ->].
    f_equal. f_equal. apply count_rows_ext. intros r Hr.
    unfold with_status.
    destruct (filtered_status_not_null df c r Hr) as (s & ->).
    apply andb_true_r. }
  unfold Agg.top_acq. apply head_sort_top_n;
    [ apply Qle_bool_iff | apply Qle_total | apply Qle_trans ].
Qed.

(** * Further properties of the script *)

(** ** Sidebar options and defaults *)

Section Ascending.
Context {A : Type}.
Variables (leb : A -> A -> bool) (le : A -> A -> Prop).
Hypothesis leb_le : forall a b, leb a b = true <-> le a b.
Hypothesis le_total : forall a b, le a b \/ le b a.

Lemma insert_HdRel (y x : A) (t : list A) :
  HdRel le y t -> le y x -> HdRel le y (insert leb x t).
Proof.
  intros Hd Hyx. destruct t as [|z t]; simpl.
  - constructor. exact Hyx.
  - destruct (leb x z); constructor; [exact Hyx|].
    inversion Hd. assumption.
Qed.

Lemma insert_Sorted (x : A) (l : list A) :
  Sorted le l -> Sorted le (insert leb x l).
Proof.
  induction 1 as [|y t Ht IH Hd]; simpl.
  - repeat constructor.
  - destruct (leb x y) eqn:E.
    + apply leb_le in E. repeat constructor; assumption.
    + constructor; [exact IH|].
      apply insert_HdRel; [exact Hd|].
      destruct (le_total y x) as [H|H]; [exact H|].
      apply leb_le in H. congruence.
Qed.

Lemma sort_by_Sorted (l : list A) : Sorted le (sort_by leb l).
Proof.
  induction l as [|x t IH]; simpl; [constructor|].
  apply insert_Sorted, IH.
Qed.

Lemma Sorted_NoDup_ascending (l : list A) :
  Sorted le l -> NoDup l -> ascending le l.
Proof.
  unfold ascending. induction 1 as [|x t Ht IH Hd]; intros Hnd.
  - constructor.
  - inversion Hnd as [|x' t' Hx Hnd']; subst.
    constructor; [apply IH, Hnd'|].
    destruct Hd as [|y t Hxy]; constructor.
    split; [exact Hxy|]. intros ->. apply Hx. left; reflexivity.
Qed.

Lemma sort_by_ascending (l : list A) :
  NoDup l -> ascending le (sort_by leb l).
Proof.
  intros Hnd. apply Sorted_NoDup_ascending; [apply sort_by_Sorted|].
  eapply Permutation_NoDup; [symmetry; apply sort_by_perm | exact Hnd].
Qed.
End Ascending.

Lemma group_keys_ascending (col : list (option string)) :
  ascending string_le (Agg.group_keys col).
Proof.
  unfold Agg.group_keys, sorted.
  apply sort_by_ascending.
  - intros a b. reflexivity.
  - apply String.leb_total.
  - apply unique_NoDup.
Qed.

(** X1: the three multiselects offer their column's non-null values, each
    once, in ascending order of the strings. *)
Theorem options_ascending_distinct (df : frame row) :
  (ascending string_le (Collector.status_options df)
   /\ NoDup (Collector.status_options df)
   /\ forall s, In s (Collector.status_options df) <-> In (Some s) (map status (rows df)))
  /\ (ascending string_le (Collector.market_options df)
      /\ NoDup (Collector.market_options df)
      /\ forall s, In s (Collector.market_options df) <-> In (Some s) (map market (rows df)))
  /\ (ascending string_le (Collector.country_options df)
      /\ NoDup (Collector.country_options df)
      /\ forall s, In s (Collector.country_options df)
                   <-> In (Some s) (map country_code (rows df))).
Proof.
  repeat split;
    try apply group_keys_ascending;
    try apply group_keys_NoDup;
    try (apply group_keys_In).
Qed.

(** X2: by default every status offered is selected, and the markets selected
    are the first five offered (all of them when there are fewer). *)
Theorem default_selections (df : frame row) :
  Permutation (Collector.default_status df) (Collector.status_options df)
  /\ (exists rest,
        Collector.market_options df = Collector.default_market df ++ rest)
  /\ List.length (Collector.default_market df)
     = Nat.min 5 (List.length (Collector.market_options df))
  /\ NoDup (Collector.default_market df).
Proof.
  split; [symmetry; apply sort_by_perm|].
  split; [exists (skipn 5 (Collector.market_options df));
          symmetry; apply firstn_skipn|].
  split; [apply length_firstn|].
  pose proof (group_keys_NoDup (map market (rows df))) as H.
  unfold Agg.group_keys in H.
  rewrite <- (firstn_skipn 5) in H. apply NoDup_app_remove_r in H. exact H.
Qed.

(** X3: with every offered value selected, the three selection clauses remove
    exactly the rows with a null status, market or country: a row of the
    Dataset is in the view exactly when those three are non-null, its
    year is within the range and its funding reaches the threshold. *)
Theorem all_selected_view (df : frame row) (c : criteria) (r : row) :
  all_selected df c ->
  In r (rows df) ->
  (In r (rows (filtered_df df c))
   <-> (status r <> None /\ market r <> None /\ country_code r <> None)
       /\ (fst (founded_range c) <= founded_year r <= snd (founded_range c))%Z
       /\ (inject_Z (min_funding c) <= funding_total_usd r)%Q).
Proof.
  intros (Hs & Hm & Hc) Hr. cbn [rows filtered_df].
  rewrite filter_In, mask_spec. unfold five_clauses. split.
  - intros (_ & (s & Es & _) & (m & Em & _) & (k & Ek & _) & Hy & Hf).
    repeat split; try congruence; try apply Hy; exact Hf.
  - intros ((Ns & Nm & Nk) & Hy & Hf). split; [exact Hr|].
    destruct (status r) as [s|] eqn:Es; [|congruence].
    destruct (market r) as [m|] eqn:Em; [|congruence].
    destruct (country_code r) as [k|] eqn:Ek; [|congruence].
    split; [exists s; split; [reflexivity|]; apply Hs, group_keys_In, in_map_iff; eauto|].
    split; [exists m; split; [reflexivity|]; apply Hm, group_keys_In, in_map_iff; eauto|].
    split; [exists k; split; [reflexivity|]; apply Hc, group_keys_In, in_map_iff; eauto|].
    split; assumption.
Qed.

Lemma all_selected_view_witness :
  all_selected Inputs.null_status_frame (Inputs.select_all Inputs.null_status_frame)
  /\ In Inputs.null_status_row (rows Inputs.null_status_frame)
  /\ (In Inputs.null_status_row
         (rows (filtered_df Inputs.null_status_frame
                  (Inputs.select_all Inputs.null_status_frame)))
      <-> (status Inputs.null_status_row <> None
           /\ market Inputs.null_status_row <> None
           /\ country_code Inputs.null_status_row <> None)
          /\ (fst (founded_range (Inputs.select_all Inputs.null_status_frame))
              <= founded_year Inputs.null_status_row
              <= snd (founded_range (Inputs.select_all Inputs.null_status_frame)))%Z
          /\ (inject_Z (min_funding (Inputs.select_all Inputs.null_status_frame))
              <= funding_total_usd Inputs.null_status_row)%Q).
Proof.
  assert (Ha : all_selected Inputs.null_status_frame
                 (Inputs.select_all Inputs.null_status_frame)).
  { repeat split; intros s Hs; vm_compute in Hs |- *; exact Hs. }
  assert (Hi : In Inputs.null_status_row (rows Inputs.null_status_frame))
    by (left; reflexivity).
  split; [exact Ha|]. split; [exact Hi|].
  exact (all_selected_view Inputs.null_status_frame
           (Inputs.select_all Inputs.null_status_frame)
           Inputs.null_status_row Ha Hi).
Defined.

(** ** Filter algebra *)

Lemma filter_and {A : Type} (f g : A -> bool) (l : list A) :
  filter f (filter g l) = filter (fun x => g x && f x) l.
Proof.
  induction l as [|x l IH]; simpl; [reflexivity|].
  destruct (g x); simpl; [destruct (f x)|]; rewrite IH; reflexivity.
Qed.

(** X4: two filters can be applied in either order: the view of a view under
    a second set of criteria does not depend on which set came first,
    and holds the rows of the Dataset that satisfy both. *)
Theorem filter_commutes (df : frame row) (c1 c2 : criteria) :
  filtered_df (filtered_df df c1) c2 = filtered_df (filtered_df df c2) c1
  /\ forall r, In r (rows (filtered_df (filtered_df df c1) c2))
               <-> In r (rows df) /\ five_clauses c1 r /\ five_clauses c2 r.
Proof.
  split.
  - unfold filtered_df. cbn [rows has_funding_rounds has_homepage_url].
    rewrite !filter_and. f_equal. apply filter_ext. intros r. apply andb_comm.
  - intros r. cbn [rows filtered_df].
    rewrite !filter_In, !mask_spec. tauto.
Qed.

Lemma wider_clauses (c c' : criteria) (r : row) :
  wider c c' -> five_clauses c r -> five_clauses c' r.
Proof.
  intros (Hs & Hm & Hc & Hlo & Hhi & Ht)
         ((s & Es & Is) & (m & Em & Im) & (k & Ek & Ik) & Hy & Hf).
  repeat split; eauto; try lia.
  eapply Qle_trans; [|exact Hf]. rewrite <- Zle_Qle. exact Ht.
Qed.

(** X5: relaxing the criteria (larger selections, wider year range, lower
    threshold) never loses a row: the view under the stricter criteria
    is included in the view under the relaxed ones, and is what the
    stricter criteria select from it. *)
Theorem filter_monotone (df : frame row) (c c' : criteria) :
  wider c c' ->
  incl (rows (filtered_df df c)) (rows (filtered_df df c'))
  /\ (List.length (rows (filtered_df df c))
      <= List.length (rows (filtered_df df c')))%nat
  /\ filtered_df (filtered_df df c') c = filtered_df df c.
Proof.
  intros Hw.
  assert (Himp : forall r, mask c r = true -> mask c' r = true).
  { intros r H. apply mask_spec. apply (wider_clauses c c' r Hw).
    apply mask_spec, H. }
  assert (Heq : filter (mask c) (filter (mask c') (rows df)) = filter (mask c) (rows df)).
  { rewrite filter_and. apply filter_ext. intros r.
    destruct (mask c r) eqn:E; [rewrite (Himp r E)|rewrite andb_false_r]; reflexivity. }
  split; [|split].
  - intros r. cbn [rows filtered_df]. rewrite !filter_In. intros [Hr Hm]. auto.
  - cbn [rows filtered_df]. rewrite <- Heq. apply filter_length_le.
  - unfold filtered_df. cbn [rows has_funding_rounds has_homepage_url].
    rewrite Heq. reflexivity.
Qed.

Lemma filter_monotone_witness :
  wider Inputs.narrow_crit Inputs.wide_crit
  /\ incl (rows (filtered_df Inputs.tie_frame Inputs.narrow_crit))
          (rows (filtered_df Inputs.tie_frame Inputs.wide_crit)).
Proof.
  assert (Hw : wider Inputs.narrow_crit Inputs.wide_crit).
  { unfold wider, Inputs.narrow_crit, Inputs.wide_crit. cbn.
    repeat split; try lia; intros x Hx; cbn in Hx |- *; tauto. }
  split; [exact Hw|].
  exact (proj1 (filter_monotone Inputs.tie_frame Inputs.narrow_crit
                  Inputs.wide_crit Hw)).
Defined.

(** ** Page body *)

Lemma dashboard_no_rows (df : frame row) (c : criteria) :
  (forall r, In r (rows df) -> mask c r = false) ->
  Page.dashboard df c = [ Page.no_data ].
Proof.
  intros H. unfold Page.dashboard, empty. cbn [rows filtered_df].
  replace (filter (mask c) (rows df)) with (@nil row); [reflexivity|].
  symmetry. induction (rows df) as [|r t IH]; simpl; [reflexivity|].
  rewrite (H r) by (left; reflexivity). apply IH.
  intros r' Hr'. apply H. right. exact Hr'.
Qed.

(** X6: a multiselect left without any selected value empties the view: the
    page is then the warning alone, whatever the table holds. *)
Theorem empty_selection_warning (df : frame row) (c : criteria) :
  selected_status c = [] \/ selected_market c = [] \/ selected_country c = [] ->
  rows (filtered_df df c) = []
  /\ Page.dashboard df c
     = [ (page, st_warning "No data available for selected filters.") ].
Proof.
  intros H.
  assert (Hm : forall r, In r (rows df) -> mask c r = false).
  { intros r _. apply not_true_is_false. intros Hmask.
    apply mask_spec in Hmask.
    destruct Hmask as ((s & _ & Is) & (m & _ & Im) & (k & _ & Ik) & _).
    destruct H as [E|[E|E]]; rewrite E in *; contradiction. }
  split.
  - cbn [rows filtered_df]. induction (rows df) as [|r t IH]; simpl; [reflexivity|].
    rewrite (Hm r) by (left; reflexivity). apply IH.
    intros r' Hr'. apply Hm. right. exact Hr'.
  - apply dashboard_no_rows, Hm.
Qed.

Lemma empty_selection_warning_witness :
  (selected_status Inputs.no_status_crit = []
   \/ selected_market Inputs.no_status_crit = []
   \/ selected_country Inputs.no_status_crit = [])
  /\ Page.dashboard Inputs.tie_frame Inputs.no_status_crit
     = [ (page, st_warning "No data available for selected filters.") ].
Proof.
  split; [left; reflexivity|].
  apply (empty_selection_warning Inputs.tie_frame Inputs.no_status_crit).
  left; reflexivity.
Defined.

(** X7: a threshold above the funding of every row empties the view: the
    page is then the warning alone. *)
Theorem threshold_above_all_warning (df : frame row) (c : criteria) :
  (forall r, In r (rows df) -> (funding_total_usd r < inject_Z (min_funding c))%Q) ->
  Page.dashboard df c
  = [ (page, st_warning "No data available for selected filters.") ].
Proof.
  intros H. apply dashboard_no_rows. intros r Hr.
  apply not_true_is_false. intros Hmask. apply mask_spec in Hmask.
  destruct Hmask as (_ & _ & _ & _ & Hf).
  apply (Qlt_not_le _ _ (H r Hr)), Hf.
Qed.

Lemma threshold_above_all_warning_witness :
  (forall r, In r (rows Inputs.tie_frame) ->
             (funding_total_usd r < inject_Z (min_funding Inputs.empty_crit))%Q)
  /\ Page.dashboard Inputs.tie_frame Inputs.empty_crit
     = [ (page, st_warning "No data available for selected filters.") ].
Proof.
  assert (H : forall r, In r (rows Inputs.tie_frame) ->
                        (funding_total_usd r < inject_Z (min_funding Inputs.empty_crit))%Q).
  { intros r [<-|[<-|[]]]; reflexivity. }
  split; [exact H|].
  exact (threshold_above_all_warning Inputs.tie_frame Inputs.empty_crit H).
Defined.

Lemma no_data_not_in_views (fdf : frame row) :
  ~ In Page.no_data
       (Page.overview fdf
        ++ Page.view1 fdf ++ Page.add_spacing 2
        ++ Page.view2 fdf ++ Page.add_spacing 3
        ++ Page.view3 fdf ++ Page.add_spacing 3
        ++ Page.view4 fdf ++ Page.add_spacing 3
        ++ Page.view5 fdf ++ Page.add_spacing 3
        ++ Page.view6 fdf ++ Page.add_spacing 3
        ++ Page.view7 fdf).
Proof.
  unfold Page.overview, Page.view1, Page.view2, Page.view3, Page.view4,
    Page.view5, Page.view6, Page.view7, Page.add_spacing, Page.no_data.
  destruct (has_homepage_url fdf), (has_funding_rounds fdf),
    (Agg.has_acquired (rows fdf)); cbn [repeat app In];
    intuition discriminate.
Qed.

Lemma dashboard_nonempty (df : frame row) (c : criteria) :
  rows (filtered_df df c) <> [] ->
  Page.dashboard df c
  = Page.overview (filtered_df df c)
    ++ Page.view1 (filtered_df df c) ++ Page.add_spacing 2
    ++ Page.view2 (filtered_df df c) ++ Page.add_spacing 3
    ++ Page.view3 (filtered_df df c) ++ Page.add_spacing 3
    ++ Page.view4 (filtered_df df c) ++ Page.add_spacing 3
    ++ Page.view5 (filtered_df df c) ++ Page.add_spacing 3
    ++ Page.view6 (filtered_df df c) ++ Page.add_spacing 3
    ++ Page.view7 (filtered_df df c).
Proof.
  intros H. unfold Page.dashboard, empty.
  destruct (rows (filtered_df df c)); [tauto | reflexivity].
Qed.

(** X8: the warning and the views exclude each other: the page holds the
    warning exactly when the view is empty. *)
Theorem warning_iff_empty_view (df : frame row) (c : criteria) :
  In (page, st_warning "No data available for selected filters.")
     (Page.dashboard df c)
  <-> rows (filtered_df df c) = [].
Proof.
  destruct (rows (filtered_df df c)) as [|r t] eqn:E.
  - unfold Page.dashboard, empty. rewrite E.
    split; [reflexivity | intros _; left; reflexivity].
  - rewrite dashboard_nonempty by (rewrite E; discriminate).
    split; [|discriminate]. intros H. exfalso.
    exact (no_data_not_in_views (filtered_df df c) H).
Qed.

(** X9: a non-empty view opens the page with the heading, the number of rows
    of the whole view (in decimal: reading the text back gives the
    number), and a table of its first 20 rows, or of all of them if
    there are fewer, in the order of the view; the table has the
    homepage links when the table read has that column, and is the plain
    frame otherwise. *)
Theorem overview_count_and_table (df : frame row) (c : criteria) :
  rows (filtered_df df c) <> [] ->
  (exists rest,
      Page.dashboard df c
      = (page, st_markdown "## 📊 Filtered Startup Overview")
        :: (page, st_write ("Total Startups: "
                            ++ str_of_nat (List.length (rows (filtered_df df c))))%string)
        :: (page, if has_homepage_url df
                  then st_table (map display_of (firstn 20 (rows (filtered_df df c))))
                  else st_write_frame (firstn 20 (rows (filtered_df df c))))
        :: rest)
  /\ List.length (firstn 20 (rows (filtered_df df c)))
     = Nat.min 20 (List.length (rows (filtered_df df c)))
  /\ option_map Nat.of_uint
       (NilEmpty.uint_of_string (str_of_nat (List.length (rows (filtered_df df c)))))
     = Some (List.length (rows (filtered_df df c))).
Proof.
  intros H. split; [|split].
  - rewrite (dashboard_nonempty df c H). unfold Page.overview.
    cbn [app has_homepage_url filtered_df]. unfold head, display_df.
    cbn [rows]. rewrite firstn_map. eauto.
  - apply length_firstn.
  - unfold str_of_nat. rewrite NilEmpty.usu. cbn [option_map].
    rewrite DecimalNat.Unsigned.of_to. reflexivity.
Qed.

Lemma overview_count_and_table_witness :
  rows (filtered_df Inputs.tie_frame Inputs.wide_crit) <> []
  /\ List.length (firstn 20 (rows (filtered_df Inputs.tie_frame Inputs.wide_crit)))
     = Nat.min 20 (List.length (rows (filtered_df Inputs.tie_frame Inputs.wide_crit))).
Proof.
  assert (H : rows (filtered_df Inputs.tie_frame Inputs.wide_crit) <> [])
    by (vm_compute; discriminate).
  split; [exact H|].
  exact (proj1 (proj2 (overview_count_and_table Inputs.tie_frame Inputs.wide_crit H))).
Defined.

(** X10: the scatter plot of funding rounds is drawn only from a table that
    has the funding_rounds column, and then over the rows of the view;
    without the column a non-empty view gets the notice in its place. *)
Theorem scatter_needs_funding_rounds (df : frame row) (c : criteria) :
  (forall k t d, In (k, st_scatter t d) (Page.dashboard df c) ->
                 has_funding_rounds df = true /\ k = col1
                 /\ d = rows (filtered_df df c) /\ d <> [])
  /\ (rows (filtered_df df c) <> [] ->
      if has_funding_rounds df
      then In (col1, st_scatter "Funding Rounds vs Total Funding"
                                (rows (filtered_df df c)))
              (Page.dashboard df c)
      else In (col1, st_info "Funding rounds data not available for scatter plot.")
              (Page.dashboard df c)).
Proof.
  destruct (rows (filtered_df df c)) as [|r0 t0] eqn:E.
  - split; [|tauto]. intros k t d H. exfalso.
    unfold Page.dashboard, empty in H. rewrite E in H.
    destruct H as [H|[]]. discriminate H.
  - assert (Hne : rows (filtered_df df c) <> []) by (rewrite E; discriminate).
    rewrite (dashboard_nonempty df c Hne). rewrite <- E.
    unfold Page.overview, Page.view1, Page.view2, Page.view3, Page.view4,
      Page.view5, Page.view6, Page.view7, Page.add_spacing.
    cbn [has_funding_rounds has_homepage_url filtered_df].
    split.
    + intros k t d H.
      destruct (has_homepage_url df), (has_funding_rounds df),
        (Agg.has_acquired _); cbn [repeat app In] in H;
        repeat (destruct H as [H|H]; [try discriminate H|]);
        try contradiction;
        injection H as <- <- <-; repeat split; exact Hne.
    + intros _.
      destruct (has_homepage_url df), (has_funding_rounds df),
        (Agg.has_acquired _); cbn [repeat app In]; tauto.
Qed.

(** X11: the page depends on the table only through the view: running the
    page body on the view itself gives the same page. *)
Theorem dashboard_of_view (df : frame row) (c : criteria) :
  Page.dashboard (filtered_df df c) c = Page.dashboard df c.
Proof.
  unfold Page.dashboard, filtered_df.
  cbn [rows has_funding_rounds has_homepage_url].
  rewrite filter_idem. reflexivity.
Qed.

(** ** Rows per group *)

Lemma list_sum_perm (l l' : list nat) :
  Permutation l l' -> list_sum l = list_sum l'.
Proof. induction 1; simpl; lia. Qed.

Lemma list_sum_indicator {K : Type} (test : K -> bool) (keys : list K) :
  list_sum (map (fun k => if test k then 1%nat else 0%nat) keys)
  = List.length (filter test keys).
Proof.
  induction keys as [|k t IH]; simpl; [reflexivity|].
  destruct (test k); simpl; rewrite IH; reflexivity.
Qed.

Lemma count_groups {K A : Type} (test : K -> A -> bool) (w : A -> nat)
      (keys : list K) (l : list A) :
  (forall x, In x l -> List.length (filter (fun k => test k x) keys) = w x) ->
  list_sum (map (fun k => List.length (filter (test k) l)) keys)
  = list_sum (map w l).
Proof.
  induction l as [|x t IH]; intros H.
  - cbn [filter List.length map list_sum]. apply list_sum_map_zero. reflexivity.
  - rewrite (map_ext _ (fun k => ((if test k x then 1 else 0)
                                  + List.length (filter (test k) t))%nat))
      by (intros k; simpl; destruct (test k x); reflexivity).
    rewrite (list_sum_map_add (fun k => if test k x then 1%nat else 0%nat)
                              (fun k => List.length (filter (test k) t))).
    rewrite IH by (intros y Hy; apply H; right; exact Hy).
    rewrite list_sum_indicator, (H x) by (left; reflexivity). reflexivity.
Qed.

Lemma list_sum_ones {A : Type} (l : list A) :
  list_sum (map (fun _ => 1%nat) l) = List.length l.
Proof. induction l as [|x t IH]; simpl; [reflexivity | rewrite IH; reflexivity]. Qed.

Lemma filter_none {A : Type} (p : A -> bool) (l : list A) :
  (forall y, In y l -> p y = false) -> filter p l = [].
Proof.
  induction l as [|y t IH]; intros H; simpl; [reflexivity|].
  rewrite (H y) by (left; reflexivity). apply IH.
  intros z Hz. apply H. right. exact Hz.
Qed.

Lemma filter_eqb_one {K : Type} (eqb : K -> K -> bool)
      (eqb_eq : forall a b, eqb a b = true <-> a = b) (x : K) (keys : list K) :
  NoDup keys -> In x keys ->
  List.length (filter (eqb x) keys) = 1%nat.
Proof.
  induction 1 as [|k t Hk Ht IH]; simpl; intros Hin; [tauto|].
  destruct (eqb x k) eqn:E.
  - apply eqb_eq in E. subst k. rewrite filter_none; [reflexivity|].
    intros y Hy. apply not_true_is_false. intros Ey.
    apply eqb_eq in Ey. subst y. tauto.
  - destruct Hin as [->|Hin]; [|apply IH, Hin].
    rewrite (proj2 (eqb_eq x x) eq_refl) in E. discriminate.
Qed.

(** ** Funding by year, by market, and counts by country *)

Lemma uniqueZ_In (l : list Z) (y : Z) : In y (uniqueZ l) <-> In y l.
Proof.
  induction l as [|x t IH]; simpl; [tauto|].
  rewrite filter_In, IH, negb_true_iff, Z.eqb_neq.
  destruct (Z.eq_dec x y); intuition.
Qed.

Lemma uniqueZ_NoDup (l : list Z) : NoDup (uniqueZ l).
Proof.
  induction l as [|x t IH]; simpl; constructor.
  - rewrite filter_In, negb_true_iff, Z.eqb_neq. tauto.
  - apply NoDup_filter, IH.
Qed.

Lemma Sorted_weaken {A : Type} (R R' : A -> A -> Prop) (l : list A) :
  (forall a b, R a b -> R' a b) -> Sorted R l -> Sorted R' l.
Proof.
  intros HR. induction 1 as [|x t Ht IH Hd]; constructor; [exact IH|].
  destruct Hd; constructor. apply HR. assumption.
Qed.

Lemma yearly_funding_keys (rs : list row) :
  map fst (Agg.yearly_funding rs)
  = sort_by Z.leb (uniqueZ (map founded_year rs)).
Proof.
  unfold Agg.yearly_funding. rewrite map_map. cbn [fst]. apply map_id.
Qed.

(** X12: the funding-over-years series has one point per founded year
    present in the rows, in strictly increasing order of the year, and
    every row falls under exactly one point: the numbers of rows of the
    years add up to the number of rows. *)
Theorem yearly_funding_series (rs : list row) :
  Sorted Z.lt (map fst (Agg.yearly_funding rs))
  /\ (forall y, In y (map fst (Agg.yearly_funding rs))
                <-> exists r, In r rs /\ founded_year r = y)
  /\ list_sum (map (fun y => count_rows (fun r => Z.eqb (founded_year r) y) rs)
                   (map fst (Agg.yearly_funding rs)))
     = List.length rs.
Proof.
  split; [|split].
  - rewrite yearly_funding_keys.
    apply (Sorted_weaken (fun a b => (a <= b)%Z /\ a <> b)); [intros a b; lia|].
    apply (sort_by_ascending Z.leb Z.le).
    + intros a b. apply Z.leb_le.
    + intros a b. lia.
    + apply uniqueZ_NoDup.
  - intros y. rewrite yearly_funding_keys. split.
    + intros H. apply (Permutation_in _ (sort_by_perm Z.leb _)) in H.
      apply uniqueZ_In, in_map_iff in H. destruct H as (r & E & Hr). eauto.
    + intros (r & Hr & E).
      apply (Permutation_in _ (Permutation_sym (sort_by_perm Z.leb _))).
      apply uniqueZ_In, in_map_iff. eauto.
  - rewrite yearly_funding_keys, <- (list_sum_ones rs). unfold count_rows.
    apply (count_groups (fun y r => Z.eqb (founded_year r) y)).
    intros r Hr.
    apply (filter_eqb_one Z.eqb Z.eqb_eq (founded_year r)).
    + eapply Permutation_NoDup; [symmetry; apply sort_by_perm | apply uniqueZ_NoDup].
    + apply (Permutation_in _ (Permutation_sym (sort_by_perm Z.leb _))).
      apply uniqueZ_In, in_map. exact Hr.
Qed.

Lemma filtered_market_not_null (df : frame row) (c : criteria) (r : row) :
  In r (rows (filtered_df df c)) -> exists m, market r = Some m.
Proof.
  simpl. rewrite filter_In, mask_spec.
  intros (_ & _ & (m & Hm & _) & _). eauto.
Qed.

Lemma has_value_eqb (v : option string) (s k : string) :
  v = Some s -> has_value v k = String.eqb s k.
Proof. intros ->. reflexivity. Qed.

(** X13: the totals by market have one entry per market of the rows, in
    ascending order of the market name; on a Filtered View every row
    falls under exactly one market, no row being lost or counted twice:
    the numbers of rows of the markets add up to the number of rows of
    the view. *)
Theorem market_sum_partition (df : frame row) (c : criteria) :
  ascending string_le (map fst (Agg.market_sum (rows (filtered_df df c))))
  /\ (forall m, In m (map fst (Agg.market_sum (rows (filtered_df df c))))
                <-> exists r, In r (rows (filtered_df df c)) /\ market r = Some m)
  /\ list_sum (map (fun m => List.length (Agg.group market m (rows (filtered_df df c))))
                   (map fst (Agg.market_sum (rows (filtered_df df c)))))
     = List.length (rows (filtered_df df c)).
Proof.
  assert (K : forall rs, map fst (Agg.market_sum rs) = Agg.group_keys (map market rs)).
  { intros rs. unfold Agg.market_sum. rewrite map_map. cbn [fst]. apply map_id. }
  split; [|split].
  - rewrite K. apply group_keys_ascending.
  - intros m. rewrite K, group_keys_In, in_map_iff.
    split; intros (r & H1 & H2); eauto.
  - rewrite K, <- (list_sum_ones (rows (filtered_df df c))). unfold Agg.group.
    apply (count_groups (fun k r => has_value (market r) k)).
    intros r Hr. destruct (filtered_market_not_null df c r Hr) as (m & Hm).
    rewrite (filter_ext _ (String.eqb m)) by (intros k; apply has_value_eqb, Hm).
    apply (filter_eqb_one String.eqb String.eqb_eq).
    + apply group_keys_NoDup.
    + apply group_keys_In. rewrite <- Hm. apply in_map. exact Hr.
Qed.

Lemma count_rows_pos (p : row -> bool) (rs : list row) (r : row) :
  In r rs -> p r = true -> (1 <= count_rows p rs)%nat.
Proof.
  intros Hr Hp. unfold count_rows.
  assert (H : In r (filter p rs)) by (apply filter_In; auto).
  destruct (filter p rs); [destruct H | simpl; lia].
Qed.

Lemma count_rows_le (p q : row -> bool) (rs : list row) :
  (forall r, p r = true -> q r = true) ->
  (count_rows p rs <= count_rows q rs)%nat.
Proof.
  intros H. unfold count_rows. induction rs as [|r t IH]; simpl; [lia|].
  destruct (p r) eqn:E.
  - rewrite (H r E). simpl. lia.
  - destruct (q r); simpl; lia.
Qed.

Lemma Qnat_pos (n : nat) : (1 <= n)%nat -> (0 < Qnat n)%Q.
Proof.
  intros H. unfold Qnat. change 0%Q with (inject_Z 0).
  rewrite <- Zlt_Qlt. lia.
Qed.

Lemma Qnat_le (a b : nat) : (a <= b)%nat -> (Qnat a <= Qnat b)%Q.
Proof. intros H. unfold Qnat. rewrite <- Zle_Qle. lia. Qed.

(** X14: the averages by market are over the same markets, in the same
    order, as the totals, and each of them is over a group of at least
    one row: no average divides by zero. *)
Theorem market_mean_of_sum (rs : list row) :
  map fst (Agg.market_mean rs) = map fst (Agg.market_sum rs)
  /\ Forall (fun avg => (1 <= List.length (Agg.group market (fst avg) rs))%nat)
            (Agg.market_mean rs).
Proof.
  unfold Agg.market_mean, Agg.market_sum. split.
  - rewrite !map_map. reflexivity.
  - apply Forall_forall. intros e He. apply in_map_iff in He.
    destruct He as (k & <- & Hk). cbn [fst snd].
    apply group_keys_In, in_map_iff in Hk. destruct Hk as (r & Hm & Hr).
    apply (count_rows_pos (fun r => has_value (market r) k) rs r Hr).
    apply has_value_eq, Hm.
Qed.

Lemma dropna_length (col : list (option string)) :
  list_sum (map (fun v : option string => match v with Some _ => 1 | None => 0 end%nat) col)
  = List.length (dropna col).
Proof.
  induction col as [|[s|] t IH]; simpl; rewrite ?IH; reflexivity.
Qed.

Lemma dropna_length_le (col : list (option string)) :
  (List.length (dropna col) <= List.length col)%nat.
Proof. induction col as [|[s|] t IH]; simpl; lia. Qed.

Lemma counts_total (col : list (option string)) :
  list_sum (map snd (Agg.counts col)) = List.length (dropna col).
Proof.
  unfold Agg.counts. rewrite map_map. cbn [snd].
  rewrite <- dropna_length.
  apply (count_groups (fun k v => has_value v k)).
  intros v Hv. destruct v as [s|]; simpl.
  - apply (filter_eqb_one String.eqb String.eqb_eq); [apply unique_NoDup|].
    apply unique_In, dropna_In, Hv.
  - apply length_zero_iff_nil, filter_none. reflexivity.
Qed.

Lemma list_sum_firstn_le (n : nat) (l : list nat) :
  (list_sum (firstn n l) <= list_sum l)%nat.
Proof.
  revert n. induction l as [|x t IH]; intros [|n]; simpl; try lia.
  specialize (IH n). lia.
Qed.

(** X15: the country counts hold each country of the rows once, with the
    number of rows of that country, which is at least one; over all
    countries they add up to the number of rows with a country, so the
    seven shown never add up to more than the rows of the view. *)
Theorem country_counts_total (rs : list row) :
  NoDup (map fst (Agg.value_counts (map country_code rs)))
  /\ Forall (fun e => snd e = count_rows (fun r => has_value (country_code r) (fst e)) rs
                      /\ (1 <= snd e)%nat)
            (Agg.value_counts (map country_code rs))
  /\ list_sum (map snd (Agg.value_counts (map country_code rs)))
     = List.length (dropna (map country_code rs))
  /\ (list_sum (map snd (Agg.country_counts rs)) <= List.length rs)%nat.
Proof.
  pose proof (sort_values_desc_perm Nat.leb (Agg.counts (map country_code rs))) as P.
  fold (Agg.value_counts (map country_code rs)) in P.
  assert (T : list_sum (map snd (Agg.value_counts (map country_code rs)))
              = List.length (dropna (map country_code rs))).
  { rewrite <- counts_total. apply list_sum_perm, Permutation_map, P. }
  split; [|split; [|split]].
  - eapply Permutation_NoDup; [symmetry; apply Permutation_map, P|].
    unfold Agg.counts. rewrite map_map. cbn [fst]. rewrite map_id.
    apply unique_NoDup.
  - eapply Permutation_Forall; [symmetry; exact P|].
    unfold Agg.counts. apply Forall_forall. intros e He.
    apply in_map_iff in He. destruct He as (k & <- & Hk). cbn [fst snd].
    assert (E : List.length (filter (fun v => has_value v k) (map country_code rs))
                = count_rows (fun r => has_value (country_code r) k) rs).
    { unfold count_rows. clear. induction rs as [|r t IH]; simpl; [reflexivity|].
      destruct (has_value (country_code r) k); simpl; rewrite IH; reflexivity. }
    split; [exact E|]. rewrite E.
    apply unique_In, dropna_In, in_map_iff in Hk. destruct Hk as (r & Hc & Hr).
    apply (count_rows_pos _ _ r Hr). apply has_value_eq, Hc.
  - exact T.
  - unfold Agg.country_counts. rewrite <- firstn_map.
    eapply Nat.le_trans; [apply list_sum_firstn_le|].
    rewrite T. rewrite <- (length_map country_code rs). apply dropna_length_le.
Qed.

(** X16: every acquisition rate lies between 0 and 1 (the range the chart's
    axis is set to), and is a quotient by a positive number of rows:
    the table has a line only for a market with at least one row. *)
Theorem acq_rate_in_unit_interval (rs : list row) :
  Forall (fun e => (1 <= count_rows (with_status (fst e)) rs)%nat
                   /\ (0 <= snd e)%Q /\ (snd e <= 1)%Q)
         (Agg.acq_rate rs).
Proof.
  apply Forall_forall. intros [m q] H. cbn [fst snd].
  apply acq_rate_In in H. destruct H as ((r & s & Hr & Hm & Hs) & ->).
  assert (Hb : (1 <= count_rows (with_status m) rs)%nat).
  { apply (count_rows_pos _ _ r Hr). unfold with_status.
    rewrite Hs, (proj2 (has_value_eq _ _) Hm). reflexivity. }
  assert (Ha : (count_rows (cell_test m "acquired") rs
                <= count_rows (with_status m) rs)%nat).
  { apply count_rows_le. intros r'. unfold cell_test, with_status.
    rewrite !andb_true_iff, has_value_eq. intros [H1 H2].
    apply has_value_eq in H2. rewrite H2. auto. }
  split; [exact Hb|]. split.
  - apply Qle_shift_div_l; [apply Qnat_pos, Hb|].
    rewrite Qmult_0_l. apply (Qnat_le 0). lia.
  - apply Qle_shift_div_r; [apply Qnat_pos, Hb|].
    rewrite Qmult_1_l. apply Qnat_le, Ha.
Qed.

Lemma descending_split {K V : Type} (le : V -> V -> Prop) (n : nat)
      (l : list (K * V)) :
  descending le l ->
  forall a b, In a (firstn n l) -> In b (skipn n l) -> le (snd b) (snd a).
Proof.
  unfold descending. intros H. revert n.
  induction H as [|x t Ht IH Hx]; intros [|n] a b Ha Hb; simpl in *; try tauto.
  destruct Ha as [<-|Ha].
  - rewrite Forall_forall in Hx. apply Hx.
    rewrite <- (firstn_skipn n t). apply in_or_app. right. exact Hb.
  - apply (IH n); assumption.
Qed.

Lemma head_sort_dominates {K V : Type} (leb : V -> V -> bool) (le : V -> V -> Prop)
      (n : nat) (l : list (K * V)) :
  (forall a b, leb a b = true <-> le a b) ->
  (forall a b, le a b \/ le b a) ->
  (forall a b c, le a b -> le b c -> le a c) ->
  dominates le l (firstn n (sort_values_desc leb l))
  /\ List.length (firstn n (sort_values_desc leb l)) = Nat.min n (List.length l).
Proof.
  intros H1 H2 H3. split.
  - exists (skipn n (sort_values_desc leb l)). split.
    + rewrite firstn_skipn. apply sort_values_desc_perm.
    + apply descending_split. apply (sort_values_desc_descending leb le); assumption.
  - rewrite length_firstn. f_equal.
    apply Permutation_length, sort_values_desc_perm.
Qed.

(** X17: the charts of the best markets and countries leave out only what is
    not better: no group left out has a larger value than a group shown,
    and 10, 7, 7 and 7 groups are shown, or all of them if there are
    fewer. *)
Theorem top_n_keeps_largest (rs : list row) :
  (dominates Qle (Agg.market_sum rs) (Agg.top_markets rs)
   /\ List.length (Agg.top_markets rs) = Nat.min 10 (List.length (Agg.market_sum rs)))
  /\ (dominates le (Agg.counts (map country_code rs)) (Agg.country_counts rs)
      /\ List.length (Agg.country_counts rs)
         = Nat.min 7 (List.length (Agg.counts (map country_code rs))))
  /\ (dominates Qle (Agg.market_mean rs) (Agg.avg_funding rs)
      /\ List.length (Agg.avg_funding rs) = Nat.min 7 (List.length (Agg.market_mean rs)))
  /\ (dominates Qle (Agg.acq_rate rs) (Agg.top_acq rs)
      /\ List.length (Agg.top_acq rs) = Nat.min 7 (List.length (Agg.acq_rate rs))).
Proof.
  unfold Agg.top_markets, Agg.country_counts, Agg.value_counts,
    Agg.avg_funding, Agg.top_acq.
  split; [|split; [|split]].
  - apply head_sort_dominates; [apply Qle_bool_iff | apply Qle_total | apply Qle_trans].
  - apply head_sort_dominates; [apply Nat.leb_le | apply Nat_leb_total | apply Nat.le_trans].
  - apply head_sort_dominates; [apply Qle_bool_iff | apply Qle_total | apply Qle_trans].
  - apply head_sort_dominates; [apply Qle_bool_iff | apply Qle_total | apply Qle_trans].
Qed.

(** ** Loader, continued *)

Lemma trunc_le (q : Q) : (0 <= q)%Q -> (inject_Z (trunc q) <= q)%Q.
Proof.
  destruct q as [n d]. unfold Qle, trunc. simpl. intros H.
  pose proof (Z.quot_rem' n (Z.pos d)) as E.
  pose proof (Z.rem_bound_pos_pos n (Z.pos d)) as B. nia.
Qed.

Lemma trunc_ge (q : Q) : (q <= 0)%Q -> (q <= inject_Z (trunc q))%Q.
Proof.
  destruct q as [n d]. unfold Qle, trunc. simpl. intros H.
  pose proof (Z.quot_rem' n (Z.pos d)) as E.
  pose proof (Z.rem_bound_pos_neg n (Z.pos d)) as B. nia.
Qed.

Lemma trunc_nonpos (q : Q) : (q <= 0)%Q -> (trunc q <= 0)%Z.
Proof.
  destruct q as [n d]. unfold Qle, trunc. simpl. intros H.
  pose proof (Z.quot_rem' n (Z.pos d)) as E.
  pose proof (Z.rem_bound_pos_neg n (Z.pos d)) as B. nia.
Qed.

Lemma trunc_lt_succ (q : Q) : (q < inject_Z (trunc q + 1))%Q.
Proof.
  destruct q as [n d]. unfold Qlt, trunc. simpl.
  pose proof (Z.quot_rem' n (Z.pos d)) as E.
  destruct (Z.le_gt_cases 0 n) as [H|H].
  - pose proof (Z.rem_bound_pos_pos n (Z.pos d)) as B. nia.
  - pose proof (Z.rem_bound_pos_neg n (Z.pos d)) as B. nia.
Qed.

Lemma trunc_gt_pred (q : Q) : (inject_Z (trunc q - 1) < q)%Q.
Proof.
  destruct q as [n d]. unfold Qlt, trunc. simpl.
  pose proof (Z.quot_rem' n (Z.pos d)) as E.
  destruct (Z.le_gt_cases 0 n) as [H|H].
  - pose proof (Z.rem_bound_pos_pos n (Z.pos d)) as B. nia.
  - pose proof (Z.rem_bound_pos_neg n (Z.pos d)) as B. nia.
Qed.

Lemma trunc_inject (z : Z) : trunc (inject_Z z) = z.
Proof. unfold trunc. simpl. apply Z.quot_1_r. Qed.

Lemma trunc_in_int64 (q : Q) :
  (inject_Z int64_min <= q)%Q -> (q <= inject_Z int64_max)%Q ->
  in_int64 (trunc q) = true.
Proof.
  intros Hlo Hhi. unfold in_int64. apply andb_true_iff.
  rewrite !Z.leb_le.
  destruct (Qlt_le_dec q 0) as [Hn|Hp].
  - pose proof (trunc_ge q (Qlt_le_weak _ _ Hn)) as G.
    pose proof (trunc_nonpos q (Qlt_le_weak _ _ Hn)) as N.
    split; [|unfold int64_max; lia].
    rewrite Zle_Qle. eapply Qle_trans; eassumption.
  - pose proof (trunc_le q Hp) as L.
    pose proof (trunc_nonneg q Hp) as N.
    split; [unfold int64_min; lia|].
    rewrite Zle_Qle. eapply Qle_trans; eassumption.
Qed.

(** X18: the cast of founded_year to an integer raises on an infinity;
    on a finite number within the range of 64-bit integers it truncates
    toward zero: the result is within one of the number, on the side of
    zero, and a whole number is kept as it is. *)
Theorem astype_int_truncation (cast_overflow : Q -> Z) :
  (forall negative, Loader.astype_int cast_overflow (Infinite negative) = None)
  /\ forall q,
      (inject_Z int64_min <= q)%Q -> (q <= inject_Z int64_max)%Q ->
      exists z,
        Loader.astype_int cast_overflow (Finite q) = Some z
        /\ (int64_min <= z <= int64_max)%Z
        /\ (inject_Z (z - 1) < q)%Q
        /\ (q < inject_Z (z + 1))%Q
        /\ ((0 <= q)%Q -> (0 <= z)%Z /\ (inject_Z z <= q)%Q)
        /\ ((q <= 0)%Q -> (z <= 0)%Z /\ (q <= inject_Z z)%Q)
        /\ (forall k, q = inject_Z k -> z = k).
Proof.
  split; [reflexivity|].
  intros q Hlo Hhi. exists (trunc q).
  pose proof (trunc_in_int64 q Hlo Hhi) as R.
  cbn [Loader.astype_int]. rewrite R.
  split; [reflexivity|].
  split; [unfold in_int64 in R; apply andb_true_iff in R;
          rewrite !Z.leb_le in R; exact R|].
  split; [apply trunc_gt_pred|].
  split; [apply trunc_lt_succ|].
  split; [|split].
  - intros H. split; [apply trunc_nonneg, H | apply trunc_le, H].
  - intros H. split; [apply trunc_nonpos, H | apply trunc_ge, H].
  - intros k ->. apply trunc_inject.
Qed.

Lemma sequence_map_Some {A B : Type} (f : A -> option B) (g : A -> B)
      (l : list A) :
  (forall x, In x l -> f x = Some (g x)) ->
  sequence (map f l) = Some (map g l).
Proof.
  induction l as [|x t IH]; intros H; simpl; [reflexivity|].
  rewrite (H x) by (left; reflexivity).
  rewrite IH by (intros y Hy; apply H; right; exact Hy). reflexivity.
Qed.

Lemma load_numeric_row (parse_number : string -> option number)
      (cast_overflow : Q -> Z) (r : row) :
  in_int64 (founded_year r) = true ->
  Loader.load_row parse_number cast_overflow (numeric_raw r) = Some (loaded_of r).
Proof.
  intros H. unfold Loader.load_row, numeric_raw, loaded_of.
  cbn [raw_founded_year raw_funding Loader.to_numeric Loader.fillna
       Loader.astype_int raw_name raw_market raw_country_code raw_status
       raw_funding_rounds raw_homepage_url].
  rewrite trunc_inject, H. reflexivity.
Qed.

Lemma finite_loaded_of (r : row) : Loader.finite_row (loaded_of r) = Some r.
Proof. destruct r. reflexivity. Qed.

(** X19: a table of finite funding whose founded years are whole numbers
    within the range of 64-bit integers is unchanged by normalisation,
    whatever the text parser is: written as numeric cells and loaded,
    it comes back as it was. *)
Theorem load_numeric_unchanged (parse_number : string -> option number)
        (cast_overflow : Q -> Z) (df : frame row) :
  (forall r, In r (rows df) -> in_int64 (founded_year r) = true) ->
  exists loaded,
    Loader.load_data parse_number cast_overflow (numeric_frame df) = Some loaded
    /\ Loader.finite loaded = Some df.
Proof.
  intros H. destruct df as [a b l]. cbn [rows] in H.
  exists {| has_funding_rounds := a; has_homepage_url := b;
            rows := map loaded_of l |}.
  unfold Loader.load_data, Loader.finite, numeric_frame.
  cbn [rows has_funding_rounds has_homepage_url]. split.
  - rewrite map_map.
    rewrite (sequence_map_Some _ loaded_of)
      by (intros r Hr; apply load_numeric_row, H, Hr).
    reflexivity.
  - rewrite map_map.
    rewrite (sequence_map_Some _ (fun r => r))
      by (intros r _; apply finite_loaded_of).
    rewrite map_id. reflexivity.
Qed.

Lemma load_numeric_unchanged_witness :
  (forall r, In r (rows Inputs.tie_frame) -> in_int64 (founded_year r) = true)
  /\ exists loaded,
      Loader.load_data Inputs.parse_nothing Inputs.x86_overflow
        (numeric_frame Inputs.tie_frame) = Some loaded
      /\ Loader.finite loaded = Some Inputs.tie_frame.
Proof.
  assert (H : forall r, In r (rows Inputs.tie_frame) ->
                        in_int64 (founded_year r) = true).
  { intros r [<-|[<-|[]]]; reflexivity. }
  split; [exact H|].
  exact (load_numeric_unchanged Inputs.parse_nothing Inputs.x86_overflow
           Inputs.tie_frame H).
Defined.

(** X20: a row whose founded_year, or funding, is null or does not parse is
    normalised to 0 there, and is then in no view whose year range
    starts above 0, or whose threshold is above 0: with the default
    range and threshold such rows are never shown. *)
Theorem unparsed_cells_filtered_out (parse_number : string -> option number)
        (cast_overflow : Q -> Z) (raw : raw_row) (loaded : loaded_row)
        (r : row) (df : frame row) (c : criteria) :
  Loader.load_row parse_number cast_overflow raw = Some loaded ->
  Loader.finite_row loaded = Some r ->
  (Loader.to_numeric parse_number (raw_founded_year raw) = None
   /\ (0 < fst (founded_range c))%Z)
  \/ (Loader.to_numeric parse_number (raw_funding raw) = None
      /\ (0 < min_funding c)%Z) ->
  ~ In r (rows (filtered_df df c)).
Proof.
  intros Hl Hr H Hin. cbn [rows filtered_df] in Hin.
  apply filter_In in Hin. destruct Hin as [_ Hm].
  apply mask_spec in Hm. destruct Hm as (_ & _ & _ & Hy & Hf).
  unfold Loader.load_row in Hl.
  destruct (Loader.astype_int cast_overflow
              (Loader.fillna (Finite 0)
                 (Loader.to_numeric parse_number (raw_founded_year raw))))
    as [y|] eqn:Ey; [|discriminate].
  injection Hl as <-. unfold Loader.finite_row in Hr.
  cbn [l_funding_total_usd] in Hr.
  destruct (Loader.fillna (Finite 0)
              (Loader.to_numeric parse_number (raw_funding raw))) as [q|b] eqn:Eq;
    [|discriminate].
  injection Hr as <-. cbn [founded_year funding_total_usd] in Hy, Hf.
  destruct H as [[E Hlo]|[E Ht]]; rewrite E in *.
  - cbn in Ey. injection Ey as <-. lia.
  - cbn [Loader.fillna] in Eq. injection Eq as <-.
    apply Qle_not_lt in Hf. apply Hf.
    change 0%Q with (inject_Z 0). rewrite <- Zlt_Qlt. exact Ht.
Qed.

Lemma unparsed_cells_filtered_out_witness :
  option_map Loader.finite
    (Loader.load_data Inputs.parse_nothing Inputs.x86_overflow
       Inputs.unknown_year_csv)
  = Some (Some Inputs.unknown_year_frame)
  /\ In Inputs.unknown_year_row (rows Inputs.unknown_year_frame)
  /\ ~ In Inputs.unknown_year_row
          (rows (filtered_df Inputs.unknown_year_frame
                   (Inputs.default_crit Inputs.unknown_year_frame))).
Proof.
  split; [reflexivity|]. split; [left; reflexivity|].
  apply (unparsed_cells_filtered_out Inputs.parse_nothing Inputs.x86_overflow
           Inputs.unknown_year_raw (loaded_of Inputs.unknown_year_row)
           Inputs.unknown_year_row Inputs.unknown_year_frame
           (Inputs.default_crit Inputs.unknown_year_frame)).
  - reflexivity.
  - reflexivity.
  - left. split; reflexivity.
Defined.

(** ** Slider bounds *)

Lemma fold_min_spec (l : list Z) (a : Z) :
  (fold_left Z.min l a <= a)%Z
  /\ (forall x, In x l -> (fold_left Z.min l a <= x)%Z)
  /\ (fold_left Z.min l a = a \/ In (fold_left Z.min l a) l).
Proof.
  revert a. induction l as [|y t IH]; intros a; simpl.
  - split; [lia|]. split; [tauto | left; reflexivity].
  - destruct (IH (Z.min a y)) as (H1 & H2 & H3). split; [lia|]. split.
    + intros x [<-|Hx]; [lia | apply H2, Hx].
    + destruct H3 as [H3|H3]; [|right; right; exact H3].
      rewrite H3. destruct (Z.min_spec a y) as [[_ ->]|[_ ->]]; auto.
Qed.

Lemma fold_max_spec (l : list Z) (a : Z) :
  (a <= fold_left Z.max l a)%Z
  /\ (forall x, In x l -> (x <= fold_left Z.max l a)%Z)
  /\ (fold_left Z.max l a = a \/ In (fold_left Z.max l a) l).
Proof.
  revert a. induction l as [|y t IH]; intros a; simpl.
  - split; [lia|]. split; [tauto | left; reflexivity].
  - destruct (IH (Z.max a y)) as (H1 & H2 & H3). split; [lia|]. split.
    + intros x [<-|Hx]; [lia | apply H2, Hx].
    + destruct H3 as [H3|H3]; [|right; right; exact H3].
      rewrite H3. destruct (Z.max_spec a y) as [[_ ->]|[_ ->]]; auto.
Qed.

Lemma Qmax_cases (a b : Q) :
  (a <= Slider.Qmax a b)%Q /\ (b <= Slider.Qmax a b)%Q
  /\ (Slider.Qmax a b = a \/ Slider.Qmax a b = b).
Proof.
  unfold Slider.Qmax. destruct (Qle_bool a b) eqn:E.
  - apply Qle_bool_iff in E. repeat split; auto. apply Qle_refl.
  - repeat split; auto; [apply Qle_refl|].
    destruct (Qlt_le_dec b a) as [H|H]; [apply Qlt_le_weak, H|].
    apply Qle_bool_iff in H. congruence.
Qed.

Lemma fold_Qmax_spec (l : list Q) (a : Q) :
  (a <= fold_left Slider.Qmax l a)%Q
  /\ (forall x, In x l -> (x <= fold_left Slider.Qmax l a)%Q)
  /\ (fold_left Slider.Qmax l a = a \/ In (fold_left Slider.Qmax l a) l).
Proof.
  revert a. induction l as [|y t IH]; intros a; simpl.
  - split; [apply Qle_refl|]. split; [tauto | left; reflexivity].
  - destruct (IH (Slider.Qmax a y)) as (H1 & H2 & H3).
    destruct (Qmax_cases a y) as (Ca & Cy & Cm).
    split; [eapply Qle_trans; eassumption|]. split.
    + intros x [<-|Hx]; [eapply Qle_trans; eassumption | apply H2, Hx].
    + destruct H3 as [H3|H3]; [|right; right; exact H3].
      rewrite H3. destruct Cm as [->| ->]; auto.
Qed.

(** X21: the "Founded Year" slider has bounds exactly when the table has rows;
    its bounds are then the smallest and the largest founded year of the
    table, so that the whole range of the slider removes no row by its
    year. *)
Theorem founded_year_bounds_spec (df : frame row) :
  (Slider.founded_year_bounds df = None <-> rows df = [])
  /\ forall lo hi,
      Slider.founded_year_bounds df = Some (lo, hi) ->
      (forall r, In r (rows df) -> between (founded_year r) lo hi = true)
      /\ (exists r, In r (rows df) /\ founded_year r = lo)
      /\ (exists r, In r (rows df) /\ founded_year r = hi)
      /\ (lo <= hi)%Z.
Proof.
  unfold Slider.founded_year_bounds.
  destruct (rows df) as [|r0 t] eqn:E; simpl.
  - split; [tauto|]. intros lo hi H. discriminate.
  - split; [split; discriminate|].
    intros lo hi H. injection H as <- <-.
    destruct (fold_min_spec (map founded_year t) (founded_year r0)) as (A1 & A2 & A3).
    destruct (fold_max_spec (map founded_year t) (founded_year r0)) as (B1 & B2 & B3).
    split; [|split; [|split]].
    + intros r [<-|Hr]; apply between_spec.
      * lia.
      * split; [apply A2 | apply B2]; apply in_map; exact Hr.
    + destruct A3 as [A3|A3].
      * exists r0. split; [left; reflexivity | symmetry; exact A3].
      * apply in_map_iff in A3. destruct A3 as (r & Er & Hr).
        exists r. split; [right; exact Hr | exact Er].
    + destruct B3 as [B3|B3].
      * exists r0. split; [left; reflexivity | symmetry; exact B3].
      * apply in_map_iff in B3. destruct B3 as (r & Er & Hr).
        exists r. split; [right; exact Hr | exact Er].
    + lia.
Qed.

(** X22: the "Minimum Funding" slider has bounds exactly when the table has
    rows; it starts at 0 and ends at the largest funding with its
    fraction cut off, so every funding is below the end plus one.  When
    some funding is not negative, the end is not negative either and the
    row of largest funding passes every threshold up to the end: the
    slider alone cannot empty the view. *)
Theorem min_funding_bounds_spec (df : frame row) :
  (Slider.min_funding_bounds df = None <-> rows df = [])
  /\ forall lo hi,
      Slider.min_funding_bounds df = Some (lo, hi) ->
      lo = 0%Z
      /\ (forall r, In r (rows df) -> (funding_total_usd r < inject_Z (hi + 1))%Q)
      /\ ((exists r, In r (rows df) /\ (0 <= funding_total_usd r)%Q) ->
          (0 <= hi)%Z
          /\ exists r, In r (rows df)
                       /\ forall t, (t <= hi)%Z ->
                                    ge_threshold (funding_total_usd r) t = true).
Proof.
  unfold Slider.min_funding_bounds.
  destruct (rows df) as [|r0 t] eqn:E; simpl.
  - split; [tauto|]. intros lo hi H. discriminate.
  - split; [split; discriminate|].
    intros lo hi H. injection H as <- <-.
    destruct (fold_Qmax_spec (map funding_total_usd t) (funding_total_usd r0))
      as (A1 & A2 & A3).
    set (m := fold_left Slider.Qmax (map funding_total_usd t) (funding_total_usd r0)) in *.
    assert (Hle : forall r, r0 = r \/ In r t -> (funding_total_usd r <= m)%Q).
    { intros r [<-|Hr]; [exact A1 | apply A2, in_map, Hr]. }
    assert (Hin : exists r, (r0 = r \/ In r t) /\ funding_total_usd r = m).
    { destruct A3 as [A3|A3].
      - exists r0. split; [left; reflexivity | symmetry; exact A3].
      - apply in_map_iff in A3. destruct A3 as (r & Er & Hr).
        exists r. split; [right; exact Hr | exact Er]. }
    split; [reflexivity|]. split.
    + intros r Hr. eapply Qle_lt_trans; [apply Hle, Hr|].
      apply trunc_lt_succ.
    + intros (r1 & Hr1 & Hpos).
      assert (Hm : (0 <= m)%Q) by (eapply Qle_trans; [exact Hpos | apply Hle, Hr1]).
      split; [apply trunc_nonneg, Hm|].
      destruct Hin as (r & Hr & Er). exists r. split; [exact Hr|].
      intros t' Ht. apply ge_threshold_spec. rewrite Er.
      eapply Qle_trans; [|apply trunc_le, Hm].
      rewrite <- Zle_Qle. exact Ht.
Qed.

(** ** Acquisition chart *)

(** X23: when the acquisition-rate chart is drawn it is not empty, and its
    first bar is a rate above 0: the market of an acquired row has a
    positive rate, and the largest rate comes first. *)
Theorem acquisition_chart_first_bar (df : frame row) (c : criteria) :
  Agg.has_acquired (rows (filtered_df df c)) = true ->
  exists e rest,
    Agg.top_acq (rows (filtered_df df c)) = e :: rest /\ (0 < snd e)%Q.
Proof.
  intros H. apply has_acquired_spec in H. destruct H as (r & Hr & Hs).
  destruct (filtered_market_not_null df c r Hr) as (m & Hm).
  set (rs := rows (filtered_df df c)) in *.
  set (q := (Qnat (count_rows (cell_test m "acquired") rs)
             / Qnat (count_rows (with_status m) rs))%Q).
  assert (Hin : In (m, q) (Agg.acq_rate rs)).
  { apply acq_rate_In. split; [eauto | reflexivity]. }
  assert (Ha : (1 <= count_rows (cell_test m "acquired") rs)%nat).
  { apply (count_rows_pos _ _ r Hr). unfold cell_test.
    rewrite (proj2 (has_value_eq _ _) Hm), (proj2 (has_value_eq _ _) Hs). reflexivity. }
  assert (Hb : (1 <= count_rows (with_status m) rs)%nat).
  { apply (count_rows_pos _ _ r Hr). unfold with_status.
    rewrite (proj2 (has_value_eq _ _) Hm), Hs. reflexivity. }
  assert (Hq : (0 < q)%Q).
  { unfold q. apply Qlt_shift_div_l; [apply Qnat_pos, Hb|].
    rewrite Qmult_0_l. apply Qnat_pos, Ha. }
  pose proof (sort_values_desc_perm Qle_bool (Agg.acq_rate rs)) as P.
  pose proof (sort_values_desc_descending Qle_bool Qle Qle_bool_iff Qle_total
                Qle_trans (Agg.acq_rate rs)) as D.
  apply (Permutation_in _ (Permutation_sym P)) in Hin.
  unfold Agg.top_acq.
  destruct (sort_values_desc Qle_bool (Agg.acq_rate rs)) as [|e full]; [destruct Hin|].
  exists e, (firstn 6 full). split; [reflexivity|].
  destruct Hin as [->|Hin]; [exact Hq|].
  unfold descending in D. inversion D as [|e' l' _ HF]; subst.
  rewrite Forall_forall in HF. specialize (HF _ Hin). cbn [snd] in HF.
  eapply Qlt_le_trans; eassumption.
Qed.

Lemma acquisition_chart_first_bar_witness :
  Agg.has_acquired (rows (filtered_df Inputs.tie_frame Inputs.wide_crit)) = true
  /\ exists e rest,
      Agg.top_acq (rows (filtered_df Inputs.tie_frame Inputs.wide_crit)) = e :: rest
      /\ (0 < snd e)%Q.
Proof.
  split; [reflexivity|].
  apply (acquisition_chart_first_bar Inputs.tie_frame Inputs.wide_crit).
  reflexivity.
Defined.
